(** * Banking-System: the account, customer and bank model of [app.js]

    A shallow embedding of the classes [Transaction], [Account],
    [SavingsAccount], [CheckingAccount], [Customer] and [Bank], and the
    properties of the specification that concern them.

    Conventions of the embedding.
    - A JavaScript number is an IEEE 754 binary64 value: Rocq's primitive
      [float], whose operations are the ones the engine performs.  Counters
      ([Transaction.idCounter], [Account.accountCounter]) only ever hold
      small integers and are kept in [Z].
    - [Transaction] objects are shared: the array an account keeps and the
      array its [transactions] getter hands out hold the same objects.  They
      live in a store ([heap]) and arrays hold references ([loc]) into it.
    - An account object is owned by the one customer whose [Map] holds it, and
      a bank is reachable only through [Bank.instance]: those are nested by
      value, the key of the map standing for the reference.
    - A method is a computation over [this] and the global state; a [throw]
      leaves the state as it is at that point (JavaScript undoes nothing).
    - Strings are byte strings; [toLowerCase] is modelled on ASCII letters.
    - [console.log] output and the DOM controller are not modelled. *)

From Stdlib Require Import ZArith Lia Floats String Ascii.
From stdpp Require Import base option list gmap sorting.

Set Warnings "-inexact-float".

Local Open Scope Z_scope.
Local Open Scope string_scope.
Local Open Scope list_scope.

(** * JavaScript numbers *)

Module Number.

(** [a >= b] on numbers: true when [b <= a], false whenever a NaN is
    involved. *)
Definition geb (a b : float) : bool := (b <=? a)%float.

End Number.

Infix ">=?" := Number.geb (at level 70) : float_scope.

(** * Strings *)

(** [String.prototype.toLowerCase], on ASCII letters. *)
Definition lower_ascii (c : ascii) : ascii :=
  let n := nat_of_ascii c in
  if ((65 <=? n) && (n <=? 90))%nat then ascii_of_nat (n + 32) else c.

Fixpoint toLowerCase (s : string) : string :=
  match s with
  | EmptyString => EmptyString
  | String c s' => String (lower_ascii c) (toLowerCase s')
  end.

(** The text of a template literal, kept with the values it interpolates. *)
Inductive Description : Type :=
  | NoDescription                      (* '' *)
  | AccountOpened                      (* 'Account opened' *)
  | DepositTo (accountNumber : Z)      (* `Deposit to account ${n}` *)
  | WithdrawalFrom (accountNumber : Z) (* `Withdrawal from account ${n}` *)
  | InterestApplied (months : float)   (* `Interest applied for ${m} month(s)` *)
  | MonthlyMaintenanceFee              (* 'Monthly maintenance fee' *)
  | TransferredTo (accountNumber : Z)  (* `Transferred to account ${n}` *)
  | ReceivedFrom (accountNumber : Z).  (* `Received from account ${n}` *)

(** * Errors

    Every failure is [throw new Error(message)]; one constructor per message,
    and [kind] gives the class the specification files it under. *)

Inductive Error : Type :=
  | DepositNotPositive               (* "Deposit amount must be positive" *)
  | WithdrawalNotPositive            (* "Withdrawal amount must be positive" *)
  | CannotWithdraw (amount : float)  (* `Cannot withdraw $${amount}. Insufficient funds or limit exceeded` *)
  | AbstractAccount                  (* "Cannot instantiate abstract Account class" *)
  | AbstractCalculateInterest        (* "calculateInterest must be implemented by child class" *)
  | UnknownAccountTypeOf (accountType : string) (* `Unknown account type: ${accountType}` *)
  | AccountsNotFound                 (* "One or both accounts not found" *)
  | SameAccount                      (* "Cannot transfer to the same account" *)
  | TypeError.                       (* raised by the engine: a method of undefined *)

Inductive ErrorKind : Type :=
  | InvalidAmount | WithdrawalDenied | AbstractInstantiationError
  | UnknownAccountType | AccountNotFound | SameAccountTransfer | EngineError.

Definition kind (e : Error) : ErrorKind :=
  match e with
  | DepositNotPositive | WithdrawalNotPositive => InvalidAmount
  | CannotWithdraw _ => WithdrawalDenied
  | AbstractAccount | AbstractCalculateInterest => AbstractInstantiationError
  | UnknownAccountTypeOf _ => UnknownAccountType
  | AccountsNotFound => AccountNotFound
  | SameAccount => SameAccountTransfer
  | TypeError => EngineError
  end.

(** * Computations: state and exceptions

    [inl e] is [throw e], [inr v] is [return v]; the state comes back in both
    cases. *)

Definition M (S A : Type) : Type := S -> (Error + A) * S.

Section Monad.
Context {S : Type}.

Definition ret {A} (v : A) : M S A := fun s => (inr v, s).

Definition throw {A} (e : Error) : M S A := fun s => (inl e, s).

Definition bind {A B} (m : M S A) (k : A -> M S B) : M S B :=
  fun s =>
    match m s with
    | (inr v, s') => k v s'
    | (inl e, s') => (inl e, s')
    end.

Definition gets {A} (f : S -> A) : M S A := fun s => (inr (f s), s).

Definition modify (f : S -> S) : M S unit := fun s => (inr tt, f s).
End Monad.

Notation "'let*' x ':=' m 'in' k" := (bind m (fun x => k))
  (at level 10, x pattern, m at level 100, k at level 200).
Notation "m '>>' k" := (bind m (fun _ => k))
  (at level 100, k at level 200, right associativity).

(** Run a computation about a part [P] of the state [S]. *)
Definition zoom {S P A} (get : S -> P) (set : P -> S -> S) (m : M P A) : M S A :=
  fun s => let '(r, p) := m (get s) in (r, set p s).

(** * transaction.js *)

(** A reference to a [Transaction] object. *)
Definition loc : Type := nat.

Module Transaction.

Record t : Type := mk {
  id : Z;
  type : string;
  amount : float;
  description : Description;
  timestamp : Z;
  status : string
}.

(** The body of [constructor(type, amount, description = '')], given the
    value of [Transaction.idCounter] and of the clock. *)
Definition constructor (idCounter now : Z)
    (type : string) (amount : float) (description : option Description) : t :=
  {| id := idCounter;
     type := type;
     amount := amount;
     description := default NoDescription description;
     timestamp := now;
     status := "pending" |}.

Definition set_status (s : string) (this : t) : t :=
  {| id := id this; type := type this; amount := amount this;
     description := description this; timestamp := timestamp this;
     status := s |}.

Definition complete (this : t) : t := set_status "completed" this.

Definition fail (this : t) : t := set_status "failed" this.

End Transaction.

(** * The global state

    The static fields of the classes, the clock [new Date()] reads, and the
    store of [Transaction] objects. *)

Record World : Type := mkWorld {
  Transaction_idCounter : Z;
  Account_accountCounter : Z;
  now : Z;
  heap : list Transaction.t
}.

Definition set_heap (h : list Transaction.t) (w : World) : World :=
  {| Transaction_idCounter := Transaction_idCounter w;
     Account_accountCounter := Account_accountCounter w;
     now := now w;
     heap := h |}.

Definition set_Transaction_idCounter (n : Z) (w : World) : World :=
  {| Transaction_idCounter := n;
     Account_accountCounter := Account_accountCounter w;
     now := now w;
     heap := heap w |}.

Definition set_Account_accountCounter (n : Z) (w : World) : World :=
  {| Transaction_idCounter := Transaction_idCounter w;
     Account_accountCounter := n;
     now := now w;
     heap := heap w |}.

(** [new Transaction(type, amount, description)]: [idCounter++], and a fresh
    object in the store. *)
Definition new_Transaction (type : string) (amount : float)
    (description : option Description) : M World loc :=
  fun w =>
    let this :=
      Transaction.constructor (Transaction_idCounter w) (now w) type amount description in
    let w := set_Transaction_idCounter (Transaction_idCounter w + 1) w in
    (inr (length (heap w)), set_heap (heap w ++ [this]) w).

(** A method of the object a reference points to, run in place. *)
Definition update_Transaction (f : Transaction.t -> Transaction.t) (l : loc) : M World unit :=
  modify (fun w => set_heap (alter f l (heap w)) w).

Definition Transaction_complete : loc -> M World unit :=
  update_Transaction Transaction.complete.

Definition Transaction_fail : loc -> M World unit :=
  update_Transaction Transaction.fail.

(** The objects an array of references holds, in order. *)
Definition deref (w : World) (ls : list loc) : list Transaction.t :=
  omap (fun l => heap w !! l) ls.

(** A method's state is its receiver and the global state. *)
Section Receiver.
Context {T : Type}.

(** [this.field] *)
Definition this {A} (field : T -> A) : M (T * World) A :=
  gets (fun s => field (fst s)).

(** [this.field = v], by the setter of the field *)
Definition assign {A} (set : A -> T -> T) (v : A) : M (T * World) unit :=
  modify (fun s => (set v (fst s), snd s)).

(** a computation that only touches the global state *)
Definition global {A} (m : M World A) : M (T * World) A :=
  zoom snd (fun w s => (fst s, w)) m.
End Receiver.

(** * account.js *)

Module Account.

Record t : Type := mk {
  _accountNumber : Z;
  _customerId : Z;
  _balance : float;
  _accountType : string;
  _transactions : list loc;
  _isActive : bool;
  _dailyWithdrawalLimit : float;
  _todayWithdrawn : float
}.

Definition set_balance (v : float) (a : t) : t :=
  mk (_accountNumber a) (_customerId a) v (_accountType a) (_transactions a)
     (_isActive a) (_dailyWithdrawalLimit a) (_todayWithdrawn a).

Definition set_transactions (v : list loc) (a : t) : t :=
  mk (_accountNumber a) (_customerId a) (_balance a) (_accountType a) v
     (_isActive a) (_dailyWithdrawalLimit a) (_todayWithdrawn a).

Definition set_todayWithdrawn (v : float) (a : t) : t :=
  mk (_accountNumber a) (_customerId a) (_balance a) (_accountType a) (_transactions a)
     (_isActive a) (_dailyWithdrawalLimit a) v.

(** The base [_canWithdraw(amount)], which the subclasses override. *)
Definition _canWithdraw (this : t) (amount : float) : bool :=
  (_balance this >=? amount)%float
  && (_todayWithdrawn this + amount <=? _dailyWithdrawalLimit this)%float.

(** A class that extends [Account]: its objects carry the fields of the
    base class, and [_canWithdraw] is resolved by the class of the object. *)
Class Extends (T : Type) : Type := {
  super : T -> t;
  set_super : t -> T -> T;
  this_canWithdraw : T -> float -> bool
}.

(** The object while the base constructor runs. *)
#[global] Instance base : Extends t :=
  {| super a := a; set_super a _ := a; this_canWithdraw := _canWithdraw |}.

Section Methods.
Context {T : Type} `{Extends T}.

(** [this._field], for a field of the base class *)
Definition field {A} (f : t -> A) : M (T * World) A :=
  this (fun o => f (super o)).

(** [this._field = v] *)
Definition set_field {A} (set : A -> t -> t) (v : A) : M (T * World) unit :=
  assign (fun v o => set_super (set v (super o)) o) v.

Definition _addTransaction (type : string) (amount : float)
    (description : Description) : M (T * World) loc :=
  let* transaction := global (new_Transaction type amount (Some description)) in
  global (Transaction_complete transaction) >>
  let* transactions := field _transactions in
  set_field set_transactions (transactions ++ [transaction]) >>
  ret transaction.

Definition deposit (amount : float) : M (T * World) float :=
  if (amount <=? 0)%float then throw DepositNotPositive
  else
    let* balance := field _balance in
    set_field set_balance (balance + amount)%float >>
    let* accountNumber := field _accountNumber in
    _addTransaction "deposit" amount (DepositTo accountNumber) >>
    field _balance.

Definition withdraw (amount : float) : M (T * World) float :=
  if (amount <=? 0)%float then throw WithdrawalNotPositive
  else
    let* allowed := this (fun o => this_canWithdraw o amount) in
    if negb allowed then throw (CannotWithdraw amount)
    else
      let* balance := field _balance in
      set_field set_balance (balance - amount)%float >>
      let* todayWithdrawn := field _todayWithdrawn in
      set_field set_todayWithdrawn (todayWithdrawn + amount)%float >>
      let* accountNumber := field _accountNumber in
      _addTransaction "withdrawal" amount (WithdrawalFrom accountNumber) >>
      field _balance.

(** The getters. [transactions] returns [[...this._transactions]]: a new
    array that holds the same references. *)
Definition balance : M (T * World) float := field _balance.
Definition accountNumber : M (T * World) Z := field _accountNumber.
Definition accountType : M (T * World) string := field _accountType.
Definition transactions : M (T * World) (list loc) := field _transactions.

(** The base [calculateInterest()], for a class that does not override it. *)
Definition calculateInterest : M (T * World) float :=
  throw AbstractCalculateInterest.
End Methods.

(** [constructor(customerId, initialBalance = 0, accountType = 'checking')],
    as [super(...)] runs it; [abstract] tells that [this.constructor] is
    [Account] itself. *)
Definition constructor (abstract : bool) (customerId : Z)
    (initialBalance : option float) (accountType : option string) : M World t :=
  if abstract then throw AbstractAccount
  else fun w =>
    let initialBalance := default 0%float initialBalance in
    let this :=
      {| _accountNumber := Account_accountCounter w;
         _customerId := customerId;
         _balance := initialBalance;
         _accountType := default "checking" accountType;
         _transactions := [];
         _isActive := true;
         _dailyWithdrawalLimit := 1000;
         _todayWithdrawn := 0 |} in
    let w := set_Account_accountCounter (Account_accountCounter w + 1) w in
    let '(r, (this, w)) :=
      _addTransaction "account_opening" initialBalance AccountOpened (this, w) in
    (match r with inl e => inl e | inr _ => inr this end, w).

End Account.

(** * savings-account.js *)

Module SavingsAccount.

Record t : Type := mk {
  base : Account.t;
  _interestRate : float;
  _minBalance : float
}.

Definition set_base (b : Account.t) (s : t) : t :=
  mk b (_interestRate s) (_minBalance s).

Definition _canWithdraw (this : t) (amount : float) : bool :=
  let canWithdrawFromParent := Account._canWithdraw (base this) amount in
  let maintainsMinBalance :=
    (Account._balance (base this) - amount >=? _minBalance this)%float in
  canWithdrawFromParent && maintainsMinBalance.

#[global] Instance extends : Account.Extends t :=
  {| Account.super := base;
     Account.set_super := set_base;
     Account.this_canWithdraw := _canWithdraw |}.

(** [constructor(customerId, initialBalance = 0)] *)
Definition constructor (customerId : Z) (initialBalance : option float) : M World t :=
  let initialBalance := default 0%float initialBalance in
  let* b := Account.constructor false customerId (Some initialBalance) (Some "savings") in
  ret {| base := b; _interestRate := 0.02; _minBalance := 100 |}.

(** [calculateInterest(months = 1)] *)
Definition calculateInterest (months : option float) : M (t * World) float :=
  let months := default 1%float months in
  let* interestRate := this _interestRate in
  let monthlyRate := (interestRate / 12)%float in
  let* balance := Account.field Account._balance in
  let interest := (balance * monthlyRate * months)%float in
  ret interest.

(** [applyInterest(months = 1)] *)
Definition applyInterest (months : option float) : M (t * World) float :=
  let months := default 1%float months in
  let* interest := calculateInterest (Some months) in
  let* balance := Account.field Account._balance in
  Account.set_field Account.set_balance (balance + interest)%float >>
  Account._addTransaction "interest" interest (InterestApplied months) >>
  ret interest.

End SavingsAccount.

(** * checking-account.js *)

Module CheckingAccount.

Record t : Type := mk {
  base : Account.t;
  _overdraftLimit : float;
  _monthlyFee : float
}.

Definition set_base (b : Account.t) (c : t) : t :=
  mk b (_overdraftLimit c) (_monthlyFee c).

Definition _canWithdraw (this : t) (amount : float) : bool :=
  let availableBalance := (Account._balance (base this) + _overdraftLimit this)%float in
  (availableBalance >=? amount)%float
  && (Account._todayWithdrawn (base this) + amount
        <=? Account._dailyWithdrawalLimit (base this))%float.

#[global] Instance extends : Account.Extends t :=
  {| Account.super := base;
     Account.set_super := set_base;
     Account.this_canWithdraw := _canWithdraw |}.

(** [constructor(customerId, initialBalance = 0)] *)
Definition constructor (customerId : Z) (initialBalance : option float) : M World t :=
  let initialBalance := default 0%float initialBalance in
  let* b := Account.constructor false customerId (Some initialBalance) (Some "checking") in
  ret {| base := b; _overdraftLimit := 500; _monthlyFee := 10 |}.

Definition chargeMonthlyFee : M (t * World) bool :=
  let* balance := Account.field Account._balance in
  let* monthlyFee := this _monthlyFee in
  if (balance >=? monthlyFee)%float then
    Account.set_field Account.set_balance (balance - monthlyFee)%float >>
    Account._addTransaction "fee" (- monthlyFee)%float MonthlyMaintenanceFee >>
    ret true
  else ret false.

Definition calculateInterest : M (t * World) float := ret 0%float.

End CheckingAccount.

(** * Account objects

    An object whose class extends [Account] is a [SavingsAccount] or a
    [CheckingAccount]; a method called on it is the one of its class. *)

Inductive AccountObject : Type :=
  | Savings (s : SavingsAccount.t)
  | Checking (c : CheckingAccount.t).

#[global] Instance AccountObject_extends : Account.Extends AccountObject :=
  {| Account.super o :=
       match o with
       | Savings s => SavingsAccount.base s
       | Checking c => CheckingAccount.base c
       end;
     Account.set_super b o :=
       match o with
       | Savings s => Savings (SavingsAccount.set_base b s)
       | Checking c => Checking (CheckingAccount.set_base b c)
       end;
     Account.this_canWithdraw o :=
       match o with
       | Savings s => SavingsAccount._canWithdraw s
       | Checking c => CheckingAccount._canWithdraw c
       end |}.

(** A method that only [SavingsAccount] defines; on another object the call
    is a [TypeError]. *)
Definition as_Savings {A} (m : M (SavingsAccount.t * World) A) : M (AccountObject * World) A :=
  fun '(o, w) =>
    match o with
    | Savings s => let '(r, (s', w')) := m (s, w) in (r, (Savings s', w'))
    | Checking _ => (inl TypeError, (o, w))
    end.

(** A method that only [CheckingAccount] defines. *)
Definition as_Checking {A} (m : M (CheckingAccount.t * World) A) : M (AccountObject * World) A :=
  fun '(o, w) =>
    match o with
    | Checking c => let '(r, (c', w')) := m (c, w) in (r, (Checking c', w'))
    | Savings _ => (inl TypeError, (o, w))
    end.

(** * customer.js *)

Module Customer.

Record t : Type := mk {
  _customerId : Z;
  _firstName : string;
  _lastName : string;
  _email : string;
  _password : string;
  _accounts : gmap Z AccountObject;
  _isActive : bool;
  _createdDate : Z
}.

Definition set_accounts (v : gmap Z AccountObject) (c : t) : t :=
  mk (_customerId c) (_firstName c) (_lastName c) (_email c) (_password c) v
     (_isActive c) (_createdDate c).

(** A reference to an account object of this customer: the key under which
    [this._accounts] holds it.  Every object is stored once, under its own
    account number, so two references are the same object exactly when the
    keys are equal.  (A [Map] also keeps the order of insertion; only
    [getAccounts], which is not needed here, shows it.) *)
Definition ref : Type := Z.

(** [account.method(...)], run on the object in place. *)
Definition call {A} (account : ref) (method : M (AccountObject * World) A) : M (t * World) A :=
  fun '(this, w) =>
    match _accounts this !! account with
    | Some o =>
        let '(r, (o', w')) := method (o, w) in
        (r, (set_accounts (<[account := o']> (_accounts this)) this, w'))
    | None => (inl TypeError, (this, w))
    end.

(** [openAccount(accountType, initialDeposit = 0)]; the account it returns
    is given by its reference. *)
Definition openAccount (accountType : string) (initialDeposit : option float) : M (t * World) ref :=
  let initialDeposit := default 0%float initialDeposit in
  let* customerId := this _customerId in
  let* account :=
    let type := toLowerCase accountType in
    if String.eqb type "savings" then
      let* s := global (SavingsAccount.constructor customerId (Some initialDeposit)) in
      ret (Savings s)
    else if String.eqb type "checking" then
      let* c := global (CheckingAccount.constructor customerId (Some initialDeposit)) in
      ret (Checking c)
    else throw (UnknownAccountTypeOf accountType) in
  let accountNumber := Account._accountNumber (Account.super account) in
  let* accounts := this _accounts in
  assign set_accounts (<[accountNumber := account]> accounts) >>
  ret accountNumber.

(** [getAccount(accountNumber)]: the object, or [undefined]. *)
Definition getAccount (accountNumber : Z) : M (t * World) (option ref) :=
  let* accounts := this _accounts in
  ret (match accounts !! accountNumber with
       | Some _ => Some accountNumber
       | None => None
       end).

(** [transfer(fromAccountNumber, toAccountNumber, amount)] *)
Definition transfer (fromAccountNumber toAccountNumber : Z) (amount : float)
    : M (t * World) (float * float) :=
  let* fromAccount := getAccount fromAccountNumber in
  let* toAccount := getAccount toAccountNumber in
  match fromAccount, toAccount with
  | Some fromAccount, Some toAccount =>
      if decide (fromAccount = toAccount) then throw SameAccount
      else
        call fromAccount (Account.withdraw amount) >>
        call toAccount (Account.deposit amount) >>
        call fromAccount
          (Account._addTransaction "transfer_out" amount (TransferredTo toAccountNumber)) >>
        call toAccount
          (Account._addTransaction "transfer_in" amount (ReceivedFrom fromAccountNumber)) >>
        let* from := call fromAccount Account.balance in
        let* to := call toAccount Account.balance in
        ret (from, to)
  | _, _ => throw AccountsNotFound
  end.

End Customer.

(** * bank.js *)

Module Bank.

Record t : Type := mk {
  _bankName : string;
  _location : string;
  _customers : gmap Z Customer.t;
  _totalDeposits : float;
  _totalLoans : float;
  _bankBalance : float;
  _transactionFee : float
}.

(** The static [Bank.instance]: [undefined], or the one bank.  Every
    reference to a bank is a reference to that object, so the object is kept
    in the field itself. *)
Definition Static : Type := option t.

(** [new Bank(name, location)]: the value of the [new] expression. *)
Definition constructor (name location : string) : M Static t :=
  fun instance =>
    match instance with
    | Some existing => (inr existing, instance)
    | None =>
        let this :=
          {| _bankName := name;
             _location := location;
             _customers := ∅;
             _totalDeposits := 0;
             _totalLoans := 0;
             _bankBalance := 1000000;
             _transactionFee := 0.50 |} in
        (inr this, Some this)
    end.

(** [static getInstance(name = 'Default', location = 'Unknown')] *)
Definition getInstance (name location : option string) : M Static (option t) :=
  let name := default "Default" name in
  let location := default "Unknown" location in
  let* instance := gets (fun i : Static => i) in
  match instance with
  | None => constructor name location >> ret tt
  | Some _ => ret tt
  end >>
  gets (fun i : Static => i).

End Bank.


(** * Reading an account's ledger

    The vocabulary of the properties below: what an account has recorded,
    what a posting leaves behind, and which states a sequence of operations
    reaches. *)

(** The records an account holds, in the order they were pushed. *)
Definition history {T} `{Account.Extends T} (w : World) (o : T) : list Transaction.t :=
  deref w (Account._transactions (Account.super o)).

Definition completed (h : list Transaction.t) : list Transaction.t :=
  List.filter (fun t => String.eqb (Transaction.status t) "completed") h.

(** [h.map(value).reduce((sum, x) => sum + x)], and 0 for no record. *)
Definition total (value : Transaction.t -> float) (h : list Transaction.t) : float :=
  match h with
  | [] => 0%float
  | t :: rest => fold_left (fun sum t => (sum + value t)%float) rest (value t)
  end.

(** The types that take money out of an account. *)
Definition debit (type : string) : bool :=
  String.eqb type "withdrawal" || String.eqb type "fee" || String.eqb type "transfer_out".

(** Three uniform ways to read the amount of a record as a signed quantity:
    the number as it is recorded; the recorded number with the sign its type
    calls for; the magnitude of the recorded number with that sign. *)
Definition asRecorded (t : Transaction.t) : float := Transaction.amount t.

Definition signedByType (t : Transaction.t) : float :=
  if debit (Transaction.type t) then (- Transaction.amount t)%float
  else Transaction.amount t.

Definition magnitudeSignedByType (t : Transaction.t) : float :=
  if debit (Transaction.type t) then (- abs (Transaction.amount t))%float
  else abs (Transaction.amount t).

(** The reading under which the ledger balances: a withdrawal counts against
    the account, every other record counts as the number it holds (the record
    of a fee already holds a negative number). *)
Definition ledgerAmount (t : Transaction.t) : float :=
  if String.eqb (Transaction.type t) "withdrawal" then (- Transaction.amount t)%float
  else Transaction.amount t.

(** The record [_addTransaction(type, amount, description)] creates in world
    [w], once completed, and the world it leaves. *)
Definition recorded (w : World) (type : string) (amount : float)
    (description : Description) : Transaction.t :=
  Transaction.complete
    (Transaction.constructor (Transaction_idCounter w) (now w) type amount (Some description)).

Definition world_after (w : World) (records : list Transaction.t) : World :=
  {| Transaction_idCounter := Transaction_idCounter w + Z.of_nat (length records);
     Account_accountCounter := Account_accountCounter w;
     now := now w;
     heap := heap w ++ records |}.

(** The operations of an account that move its balance. *)
Inductive Operation : Type :=
  | Deposit (amount : float)
  | Withdraw (amount : float)
  | ApplyInterest (months : option float)
  | ChargeMonthlyFee.

Definition perform (op : Operation) : M (AccountObject * World) unit :=
  match op with
  | Deposit amount => Account.deposit amount >> ret tt
  | Withdraw amount => Account.withdraw amount >> ret tt
  | ApplyInterest months => as_Savings (SavingsAccount.applyInterest months) >> ret tt
  | ChargeMonthlyFee => as_Checking CheckingAccount.chargeMonthlyFee >> ret tt
  end.

(** [new SavingsAccount(...)] or [new CheckingAccount(...)] returned [o]. *)
Inductive opened : AccountObject -> World -> Prop :=
  | opened_savings customerId initialBalance w s w' :
      SavingsAccount.constructor customerId initialBalance w = (inr s, w') ->
      opened (Savings s) w'
  | opened_checking customerId initialBalance w c w' :
      CheckingAccount.constructor customerId initialBalance w = (inr c, w') ->
      opened (Checking c) w'.

(** What the rest of the program does to the world between two operations of
    one account: it creates objects, advances counters and lets time pass, and
    leaves the existing records alone. *)
Definition grows (w w' : World) : Prop :=
  exists more, heap w' = heap w ++ more.

(** The states of an account after it was opened and a sequence of operations
    returned normally, with the rest of the program running in between. *)
Inductive reachable : AccountObject -> World -> Prop :=
  | reachable_opened o w :
      opened o w -> reachable o w
  | reachable_perform o w op o' w' :
      reachable o w -> perform op (o, w) = (inr tt, (o', w')) -> reachable o' w'
  | reachable_grows o w w' :
      reachable o w -> grows w w' -> reachable o w'.

(** An account object after a posting: a new balance, a new amount withdrawn
    today, and one more reference in its array. *)
Definition posted {T} `{Account.Extends T}
    (balance todayWithdrawn : float) (l : loc) (o : T) : T :=
  let a := Account.super o in
  Account.set_super
    (Account.set_transactions (Account._transactions a ++ [l])
       (Account.set_todayWithdrawn todayWithdrawn (Account.set_balance balance a)))
    o.

(** What [super] and [set_super] owe each other: the fields of the base class
    are a part of the object that can be read and replaced. *)
Class Lawful (T : Type) `{Account.Extends T} : Prop := {
  super_set_super : forall (b : Account.t) (o : T),
    Account.super (Account.set_super b o) = b;
  set_super_set_super : forall (b b' : Account.t) (o : T),
    Account.set_super b (Account.set_super b' o) = Account.set_super b o;
  set_super_super : forall o : T,
    Account.set_super (Account.super o) o = o
}.

(** * Definitions of the proofs and of the examples *)

(** The world a constructor leaves: one more account number taken, and the
    record of the opening. *)
Definition world_opened (w : World) (initialBalance : float) : World :=
  set_Account_accountCounter (Account_accountCounter w + 1)
    (world_after w [recorded w "account_opening" initialBalance AccountOpened]).

Definition account_opened (w : World) (customerId : Z) (initialBalance : float)
    (accountType : string) : Account.t :=
  {| Account._accountNumber := Account_accountCounter w;
     Account._customerId := customerId;
     Account._balance := initialBalance;
     Account._accountType := accountType;
     Account._transactions := [length (heap w)];
     Account._isActive := true;
     Account._dailyWithdrawalLimit := 1000;
     Account._todayWithdrawn := 0 |}.

(** Every reference of the array points into the store. *)
Definition valid (w : World) (refs : list loc) : Prop :=
  Forall (fun l => (l < length (heap w))%nat) refs.

(** The invariant of an account and its records: the references are good,
    the first record is there, every record is completed, and the balance is
    the total of the ledger. *)
Definition balanced (o : AccountObject) (w : World) : Prop :=
  valid w (Account._transactions (Account.super o))
  /\ history w o <> []
  /\ Forall (fun t => Transaction.status t = "completed") (history w o)
  /\ Account._balance (Account.super o) = total ledgerAmount (history w o).

(** The statics as the classes declare them, an empty store, the clock at 0. *)
Definition fresh_world : World :=
  {| Transaction_idCounter := 1; Account_accountCounter := 1000; now := 0; heap := [] |}.

(** [new CheckingAccount(customerId, initialBalance)] and
    [new SavingsAccount(customerId, initialBalance)], with the world they leave. *)
Definition new_checking (w : World) (customerId : Z) (initialBalance : float)
    : AccountObject * World :=
  (Checking
     {| CheckingAccount.base := account_opened w customerId initialBalance "checking";
        CheckingAccount._overdraftLimit := 500;
        CheckingAccount._monthlyFee := 10 |},
   world_opened w initialBalance).

Definition new_savings (w : World) (customerId : Z) (initialBalance : float)
    : AccountObject * World :=
  (Savings
     {| SavingsAccount.base := account_opened w customerId initialBalance "savings";
        SavingsAccount._interestRate := 0.02;
        SavingsAccount._minBalance := 100 |},
   world_opened w initialBalance).

(** A sequence of operations, one after the other. *)
Fixpoint run (ops : list Operation) : M (AccountObject * World) unit :=
  match ops with
  | [] => ret tt
  | op :: ops => perform op >> run ops
  end.

Definition after (ops : list Operation) (s : AccountObject * World) : AccountObject * World :=
  snd (run ops s).

(** A checking account opened with 100, after a withdrawal of 30; the same
    account after the monthly fee instead; and a checking account opened
    with -50. *)
Definition after_withdrawal : AccountObject * World :=
  after [Withdraw 30] (new_checking fresh_world 1 100).

Definition after_fee : AccountObject * World :=
  after [ChargeMonthlyFee] (new_checking fresh_world 1 100).

Definition opened_negative : AccountObject * World :=
  new_checking fresh_world 1 (-50).

(** A savings account that has seen every kind of operation it has. *)
Definition busy_savings : AccountObject * World :=
  after [Deposit 250; Withdraw 300; ApplyInterest None; Withdraw 0.1]
    (new_savings fresh_world 1 1000).

(** The four records of a transfer, in the order they are created. *)
Definition transfer_records (w : World) (fromAccountNumber toAccountNumber : Z)
    (from to : Account.t) (amount : float) : list Transaction.t :=
  let id := Transaction_idCounter w in
  [ Transaction.mk id "withdrawal" amount
      (WithdrawalFrom (Account._accountNumber from)) (now w) "completed";
    Transaction.mk (id + 1) "deposit" amount
      (DepositTo (Account._accountNumber to)) (now w) "completed";
    Transaction.mk (id + 2) "transfer_out" amount
      (TransferredTo toAccountNumber) (now w) "completed";
    Transaction.mk (id + 3) "transfer_in" amount
      (ReceivedFrom fromAccountNumber) (now w) "completed" ].

(** The two accounts after a transfer. *)
Definition transfer_source (w : World) (amount : float) (o : AccountObject) : AccountObject :=
  let a := Account.super o in
  let n := length (heap w) in
  Account.set_super
    (Account.set_transactions (Account._transactions a ++ [n; S (S n)])
       (Account.set_todayWithdrawn (Account._todayWithdrawn a + amount)
          (Account.set_balance (Account._balance a - amount) a)))
    o.

Definition transfer_destination (w : World) (amount : float) (o : AccountObject) : AccountObject :=
  let a := Account.super o in
  let n := length (heap w) in
  Account.set_super
    (Account.set_transactions (Account._transactions a ++ [S n; S (S (S n))])
       (Account.set_balance (Account._balance a + amount) a))
    o.

(** What a record says, apart from its number, text and time. *)
Definition summary (t : Transaction.t) : string * float * string :=
  (Transaction.type t, Transaction.amount t, Transaction.status t).

(** A customer with a checking account of 100 (number 1000) and a savings
    account of 1000 (number 1001). *)
Definition john : Customer.t :=
  {| Customer._customerId := 1;
     Customer._firstName := "John";
     Customer._lastName := "Doe";
     Customer._email := "john@example.com";
     Customer._password := "c2VjcmV0MTIzc2FsdA==";
     Customer._accounts := ∅;
     Customer._isActive := true;
     Customer._createdDate := 0 |}.

Definition john_with_accounts : Customer.t * World :=
  snd ((Customer.openAccount "checking" (Some 100%float) >>
        Customer.openAccount "savings" (Some 1000%float)) (john, fresh_world)).

(** [account.transactions[0].fail()]: the caller takes the array the getter
    returns and calls a method of its first element. *)
Definition fail_first_of_view : M (AccountObject * World) unit :=
  let* view := Account.transactions in
  match view with
  | first :: _ => global (Transaction_fail first)
  | [] => ret tt
  end.

(** The account object [openAccount] builds for a lower-cased type. *)
Definition account_of_type (w : World) (customerId : Z) (initialDeposit : float)
    (type : string) : AccountObject :=
  if String.eqb type "savings"
  then fst (new_savings w customerId initialDeposit)
  else fst (new_checking w customerId initialDeposit).

(** * A customer at work

    What a caller asks of a customer, and the states a customer and the
    world go through while it is served. *)

Inductive Request : Type :=
  | OpenAccount (accountType : string) (initialDeposit : option float)
      (* customer.openAccount(accountType, initialDeposit) *)
  | Transfer (fromAccountNumber toAccountNumber : Z) (amount : float)
      (* customer.transfer(from, to, amount) *)
  | OnAccount (accountNumber : Z) (op : Operation).
      (* customer.getAccount(accountNumber).deposit(amount), and the like *)

Definition serve (r : Request) : M (Customer.t * World) unit :=
  match r with
  | OpenAccount accountType initialDeposit =>
      Customer.openAccount accountType initialDeposit >> ret tt
  | Transfer fromAccountNumber toAccountNumber amount =>
      Customer.transfer fromAccountNumber toAccountNumber amount >> ret tt
  | OnAccount accountNumber op => Customer.call accountNumber (perform op)
  end.

(** The records of the store carry increasing numbers, all below the next
    one [Transaction.idCounter] will give. *)
Definition numbered (w : World) : Prop :=
  StronglySorted Z.lt (map Transaction.id (heap w))
  /\ Forall (fun t => Transaction.id t < Transaction_idCounter w) (heap w).

(** What the rest of the program (other customers, the bank) may have done
    to the world in the meantime: it has created records and accounts,
    numbering them in order, and has left the records already made as they
    are. (A caller that changes a record through the array the getter
    [transactions] returns is no such program.) *)
Definition later (w w' : World) : Prop :=
  grows w w'
  /\ Account_accountCounter w <= Account_accountCounter w'
  /\ numbered w'.

(** The states of a customer: it starts without accounts, and is then served
    request after request, whether the request returns or throws. *)
Inductive served : Customer.t -> World -> Prop :=
  | served_new c w :
      Customer._accounts c = ∅ -> numbered w -> served c w
  | served_request c w r res c' w' :
      served c w -> serve r (c, w) = (res, (c', w')) -> served c' w'
  | served_later c w w' :
      served c w -> later w w' -> served c w'.

(** The two records a transfer adds on top of the withdrawal and the
    deposit say what the other two have said already. *)
Definition transfer_type (type : string) : bool :=
  String.eqb type "transfer_in" || String.eqb type "transfer_out".

(** The history without the transfer_in and transfer_out records. *)
Definition ledger (h : list Transaction.t) : list Transaction.t :=
  List.filter (fun t => negb (transfer_type (Transaction.type t))) h.

(** What holds of an account stored under [k] in every state of its
    customer. *)
Definition account_kept (k : Z) (o : AccountObject) (w : World) : Prop :=
  let a := Account.super o in
  Account._accountNumber a = k
  /\ k < Account_accountCounter w
  /\ valid w (Account._transactions a)
  /\ NoDup (Account._transactions a)
  /\ ledger (history w o) <> []
  /\ Forall (fun t => Transaction.status t = "completed") (history w o)
  /\ Account._balance a = total ledgerAmount (ledger (history w o))
  /\ Account._dailyWithdrawalLimit a = 1000%float
  /\ (Account._todayWithdrawn a <=? 1000)%float = true.

Definition sound (c : Customer.t) (w : World) : Prop :=
  numbered w
  /\ (forall k o, Customer._accounts c !! k = Some o -> account_kept k o w)
  /\ (forall k1 k2 o1 o2 l,
        k1 <> k2 ->
        Customer._accounts c !! k1 = Some o1 ->
        Customer._accounts c !! k2 = Some o2 ->
        l ∈ Account._transactions (Account.super o1) ->
        l ∈ Account._transactions (Account.super o2) -> False).

(** The getter [accountCount]: [this._accounts.size]. *)
Definition Customer_accountCount : M (Customer.t * World) nat :=
  let* accounts := this Customer._accounts in
  ret (size accounts).

(** The state after a caller made the requests one after the other, going on
    after a request that threw (the handlers of the page catch the error and
    log it). *)
Definition attend (requests : list Request) (s : Customer.t * World) : Customer.t * World :=
  fold_left (fun s r => snd (serve r s)) requests s.

(** John opens a checking account with 100 and a savings account with 1000,
    moves 200 from savings to checking, asks for an account of a kind the bank
    does not have, and takes 50 out of the checking account. *)
Definition john_at_work : Customer.t * World :=
  attend [ OpenAccount "checking" (Some 100%float);
           OpenAccount "Savings" (Some 1000%float);
           Transfer 1001 1000 200;
           OpenAccount "gold" None;
           OnAccount 1000 (Withdraw 50) ]
    (john, fresh_world).

(** * Passwords and the customers of the bank

    [btoa] is defined on the strings whose characters have codes 0 to 255,
    which are the strings of this development (a password with another
    character makes [btoa], and with it the constructor, throw). *)

Definition base64_alphabet : string :=
  "ABCDEFGHIJKLMNOPQRSTUVWXYZabcdefghijklmnopqrstuvwxyz0123456789+/".

Definition base64 (n : N) : ascii :=
  default "="%char (String.get (N.to_nat n) base64_alphabet).

(** Three characters give four digits of six bits; one or two characters at
    the end are filled up with zero bits and [=]. *)
Fixpoint btoa (s : string) : string :=
  match s with
  | EmptyString => EmptyString
  | String a EmptyString =>
      let a := N_of_ascii a in
      String (base64 (a / 4)) (String (base64 (a mod 4 * 16)) "==")
  | String a (String b EmptyString) =>
      let a := N_of_ascii a in
      let b := N_of_ascii b in
      String (base64 (a / 4)) (String (base64 (a mod 4 * 16 + b / 16))
        (String (base64 (b mod 16 * 4)) "="))
  | String a (String b (String c rest)) =>
      let a := N_of_ascii a in
      let b := N_of_ascii b in
      let c := N_of_ascii c in
      String (base64 (a / 4)) (String (base64 (a mod 4 * 16 + b / 16))
        (String (base64 (b mod 16 * 4 + c / 64))
           (String (base64 (c mod 64)) (btoa rest))))
  end%N.

(** [_hashPassword(password)] and [verifyPassword(password)], as functions of
    the receiver: they read it and change nothing. *)
Definition Customer_hashPassword (password : string) : string :=
  btoa (password ++ "salt")%string.

Definition Customer_verifyPassword (password : string) (this : Customer.t) : bool :=
  String.eqb (Customer_hashPassword password) (Customer._password this).

(** [new Customer(firstName, lastName, email, password)] when
    [Customer.customerCounter] is [counter]: the object, and the new value of
    the counter. *)
Definition Customer_constructor (firstName lastName email password : string)
    (w : World) (counter : Z) : Customer.t * Z :=
  ({| Customer._customerId := counter;
      Customer._firstName := firstName;
      Customer._lastName := lastName;
      Customer._email := email;
      Customer._password := Customer_hashPassword password;
      Customer._accounts := ∅;
      Customer._isActive := true;
      Customer._createdDate := now w |},
   counter + 1).

(** The errors of the bank. *)
Inductive BankError : Type :=
  | EmailAlreadyRegistered           (* "Email already registered" *)
  | InvalidEmailOrPassword           (* "Invalid email or password" *)
  | CustomerNotFound (customerId : Z). (* `Customer with ID ${customerId} not found` *)

(** What the methods of the bank work on: the bank and the static
    [Customer.customerCounter]. *)
Record Registry : Type := {
  Customer_customerCounter : Z;
  bank : Bank.t
}.

Definition Bank_set_customers (v : gmap Z Customer.t) (b : Bank.t) : Bank.t :=
  Bank.mk (Bank._bankName b) (Bank._location b) v (Bank._totalDeposits b)
    (Bank._totalLoans b) (Bank._bankBalance b) (Bank._transactionFee b).

Definition by_key (p q : Z * Customer.t) : Prop := p.1 <= q.1.

#[global] Instance by_key_dec : RelDecision by_key := fun p q => decide (p.1 <= q.1).

(** The entries of [this._customers] in the order a loop visits them. A [Map]
    keeps the order of insertion; [registerCustomer] is the only place that
    inserts, under the numbers [Customer.customerCounter++] gives, so this is
    the order of the keys. *)
Definition Bank_customers (b : Bank.t) : list (Z * Customer.t) :=
  merge_sort by_key (map_to_list (Bank._customers b)).

(** [registerCustomer(firstName, lastName, email, password)]; the customer it
    returns is given by its reference, the key under which [this._customers]
    holds it. *)
Definition Bank_registerCustomer (firstName lastName email password : string) (w : World)
    (s : Registry) : (BankError + Z) * Registry :=
  match List.find (fun entry => String.eqb (Customer._email entry.2) email)
          (Bank_customers (bank s)) with
  | Some _ => (inl EmailAlreadyRegistered, s)
  | None =>
      let '(customer, counter) :=
        Customer_constructor firstName lastName email password w
          (Customer_customerCounter s) in
      (inr (Customer._customerId customer),
       {| Customer_customerCounter := counter;
          bank := Bank_set_customers
                    (<[Customer._customerId customer := customer]>
                       (Bank._customers (bank s)))
                    (bank s) |})
  end.



(** The states of the bank and its customers: a bank is created, customers
    are registered, the registered customers work on their accounts, other
    customer objects are created, and the bank changes its other fields. *)
Inductive registered : Registry -> Prop :=
  | registered_new name location b instance counter :
      Bank.constructor name location None = (inr b, instance) ->
      registered {| Customer_customerCounter := counter; bank := b |}
  | registered_customer s firstName lastName email password w res s' :
      registered s ->
      Bank_registerCustomer firstName lastName email password w s = (res, s') ->
      registered s'
  | registered_at_work s k c accounts :
      registered s ->
      Bank._customers (bank s) !! k = Some c ->
      registered
        {| Customer_customerCounter := Customer_customerCounter s;
           bank := Bank_set_customers
                     (<[k := Customer.set_accounts accounts c]> (Bank._customers (bank s)))
                     (bank s) |}
  | registered_elsewhere s counter b :
      registered s ->
      Customer_customerCounter s <= counter ->
      Bank._customers b = Bank._customers (bank s) ->
      registered {| Customer_customerCounter := counter; bank := b |}.

(** What every such state keeps: a customer is held under its own number,
    which the counter has passed, and no two customers have one e-mail
    address. *)
Definition enrolled (s : Registry) : Prop :=
  (forall k c, Bank._customers (bank s) !! k = Some c ->
     Customer._customerId c = k /\ k < Customer_customerCounter s)
  /\ (forall k1 k2 c1 c2,
        Bank._customers (bank s) !! k1 = Some c1 ->
        Bank._customers (bank s) !! k2 = Some c2 ->
        Customer._email c1 = Customer._email c2 -> k1 = k2).

(** The position of a character in a string, its length if it is not there. *)
Fixpoint index_of (c : ascii) (s : string) : N :=
  match s with
  | EmptyString => 0
  | String c' s => if Ascii.eqb c c' then 0 else N.succ (index_of c s)
  end%N.

(** The bank of the page before anyone registered, and after John and Jane
    did. *)
Definition digital_bank : Registry :=
  {| Customer_customerCounter := 1;
     bank := {| Bank._bankName := "OOP Bank";
                Bank._location := "Digital City";
                Bank._customers := ∅;
                Bank._totalDeposits := 0;
                Bank._totalLoans := 0;
                Bank._bankBalance := 1000000;
                Bank._transactionFee := 0.50 |} |}.

Definition bank_of_john_and_jane : Registry :=
  snd (Bank_registerCustomer "Jane" "Roe" "jane@example.com" "qwerty" fresh_world
         (snd (Bank_registerCustomer "John" "Doe" "john@example.com" "secret123" fresh_world
                 digital_bank))).

(** * Facts about binary64 arithmetic *)

(** Subtracting is adding the opposite, in binary64 as in the reals. *)
Lemma float_sub_add_opp (x y : float) : (x - y = x + - y)%float.
Proof.
apply Prim2SF_inj. rewrite sub_spec, add_spec, opp_spec.
destruct (Prim2SF x) as [sx|sx| |sx mx ex], (Prim2SF y) as [sy|sy| |sy my ey];
  try reflexivity; destruct sx, sy; reflexivity.
Qed.

(** A strict inequality excludes the converse large one. *)
Lemma float_ltb_leb_false (x y : float) :
  (x <? y)%float = true -> (y <=? x)%float = false.
Proof.
rewrite ltb_spec, leb_spec. unfold SFltb, SFleb, SFcompare.
destruct (Prim2SF x) as [sx|sx| |sx mx ex], (Prim2SF y) as [sy|sy| |sy my ey];
  try discriminate; try reflexivity;
  try (destruct sx; try discriminate; try reflexivity; fail);
  try (destruct sy; try discriminate; try reflexivity; fail);
  try (destruct sx, sy; try discriminate; try reflexivity; fail).
change (Pos.compare_cont Eq mx my) with (mx ?= my)%positive.
change (Pos.compare_cont Eq my mx) with (my ?= mx)%positive.
rewrite (Z.compare_antisym ex ey), (Pos.compare_antisym mx my).
destruct sx, sy, (ex ?= ey)%Z, (mx ?= my)%positive; simpl;
  try discriminate; try reflexivity.
Qed.

(** Two numbers are different when a comparison tells them apart. *)
Lemma float_neq (x y : float) :
  (x =? x)%float = true -> (y =? x)%float = false -> x <> y.
Proof. intros Hx Hy E. rewrite <- E in Hy. congruence. Qed.

(** * The effect of each method *)

Lemma alter_last {A} (f : A -> A) (l : list A) (x : A) :
  alter f (length l) (l ++ [x]) = l ++ [f x].
Proof. induction l as [|y l IH]; simpl; [reflexivity | f_equal; exact IH]. Qed.

(** [_addTransaction] creates one completed record and pushes its reference
    on the account. *)
Lemma addTransaction_returns {T} `{Account.Extends T}
    (type : string) (amount : float) (description : Description) (o : T) (w : World) :
  Account._addTransaction type amount description (o, w)
  = (inr (length (heap w)),
     (Account.set_super
        (Account.set_transactions
           (Account._transactions (Account.super o) ++ [length (heap w)])
           (Account.super o)) o,
      world_after w [recorded w type amount description])).
Proof.
unfold Account._addTransaction, bind, global, zoom, new_Transaction,
  Transaction_complete, update_Transaction, modify, Account.field, Account.set_field,
  this, assign, gets, modify, ret, world_after, recorded; simpl.
rewrite alter_last. reflexivity.
Qed.

#[global] Instance SavingsAccount_lawful : Lawful SavingsAccount.t.
Proof. split; [reflexivity | reflexivity | intros []; reflexivity]. Qed.

#[global] Instance CheckingAccount_lawful : Lawful CheckingAccount.t.
Proof. split; [reflexivity | reflexivity | intros []; reflexivity]. Qed.

#[global] Instance AccountObject_lawful : Lawful AccountObject.
Proof.
split.
- intros b [s|c]; reflexivity.
- intros b b' [s|c]; reflexivity.
- intros [[]|[]]; reflexivity.
Qed.

Ltac run_method :=
  unfold bind, Account.field, Account.set_field, this, assign, gets, modify, ret, throw;
  cbn [fst snd];
  repeat (rewrite addTransaction_returns; cbn [fst snd]);
  rewrite ?super_set_super, ?set_super_set_super.

Section Methods.
Context {T : Type} `{Lawful T}.
Variables (o : T) (w : World) (amount : float).

Let a : Account.t := Account.super o.

Lemma deposit_throws :
  (amount <=? 0)%float = true ->
  Account.deposit amount (o, w) = (inl DepositNotPositive, (o, w)).
Proof. intros Hle. unfold Account.deposit. rewrite Hle. reflexivity. Qed.

Lemma deposit_returns :
  (amount <=? 0)%float = false ->
  Account.deposit amount (o, w)
  = (inr (Account._balance a + amount)%float,
     (posted (Account._balance a + amount) (Account._todayWithdrawn a) (length (heap w)) o,
      world_after w
        [recorded w "deposit" amount (DepositTo (Account._accountNumber a))])).
Proof.
intros Hle. unfold Account.deposit. rewrite Hle. subst a. unfold posted.
run_method. destruct (Account.super o); reflexivity.
Qed.

Lemma withdraw_not_positive :
  (amount <=? 0)%float = true ->
  Account.withdraw amount (o, w) = (inl WithdrawalNotPositive, (o, w)).
Proof. intros Hle. unfold Account.withdraw. rewrite Hle. reflexivity. Qed.

Lemma withdraw_denied :
  (amount <=? 0)%float = false ->
  Account.this_canWithdraw o amount = false ->
  Account.withdraw amount (o, w) = (inl (CannotWithdraw amount), (o, w)).
Proof.
intros Hle Hcan. unfold Account.withdraw. rewrite Hle.
unfold bind, this, gets; cbn [fst snd]. rewrite Hcan. reflexivity.
Qed.

Lemma withdraw_returns :
  (amount <=? 0)%float = false ->
  Account.this_canWithdraw o amount = true ->
  Account.withdraw amount (o, w)
  = (inr (Account._balance a - amount)%float,
     (posted (Account._balance a - amount) (Account._todayWithdrawn a + amount)
        (length (heap w)) o,
      world_after w
        [recorded w "withdrawal" amount (WithdrawalFrom (Account._accountNumber a))])).
Proof.
intros Hle Hcan. unfold Account.withdraw. rewrite Hle.
unfold bind at 1, this at 1, gets at 1. cbn [fst snd]. rewrite Hcan.
cbn [negb]. subst a. unfold posted.
run_method. destruct (Account.super o); reflexivity.
Qed.

End Methods.

Lemma calculateInterest_returns (s : SavingsAccount.t) (w : World) (months : option float) :
  SavingsAccount.calculateInterest months (s, w)
  = (inr (Account._balance (SavingsAccount.base s)
          * (SavingsAccount._interestRate s / 12) * default 1 months)%float,
     (s, w)).
Proof. reflexivity. Qed.

Lemma applyInterest_returns (s : SavingsAccount.t) (w : World) (months : option float) :
  let a := SavingsAccount.base s in
  let interest :=
    (Account._balance a * (SavingsAccount._interestRate s / 12) * default 1 months)%float in
  SavingsAccount.applyInterest months (s, w)
  = (inr interest,
     (posted (Account._balance a + interest) (Account._todayWithdrawn a) (length (heap w)) s,
      world_after w
        [recorded w "interest" interest (InterestApplied (default 1%float months))])).
Proof.
intros a interest. unfold SavingsAccount.applyInterest.
unfold bind at 1. rewrite calculateInterest_returns. cbn [default].
fold a. fold interest. unfold posted. run_method. cbn [Account.super SavingsAccount.extends].
fold a. destruct a; reflexivity.
Qed.

Lemma chargeMonthlyFee_charges (c : CheckingAccount.t) (w : World) :
  let a := CheckingAccount.base c in
  let monthlyFee := CheckingAccount._monthlyFee c in
  (Account._balance a >=? monthlyFee)%float = true ->
  CheckingAccount.chargeMonthlyFee (c, w)
  = (inr true,
     (posted (Account._balance a - monthlyFee) (Account._todayWithdrawn a) (length (heap w)) c,
      world_after w [recorded w "fee" (- monthlyFee) MonthlyMaintenanceFee])).
Proof.
intros a monthlyFee Hge. unfold CheckingAccount.chargeMonthlyFee.
unfold bind at 1, Account.field at 1, this at 1, gets at 1. cbn [fst snd].
unfold bind at 1, this at 1, gets at 1. cbn [fst snd].
cbn [Account.super CheckingAccount.extends]. fold a. fold monthlyFee. rewrite Hge.
unfold posted. run_method. cbn [Account.super CheckingAccount.extends].
fold a. destruct a; reflexivity.
Qed.

Lemma chargeMonthlyFee_skips (c : CheckingAccount.t) (w : World) :
  (Account._balance (CheckingAccount.base c) >=? CheckingAccount._monthlyFee c)%float = false ->
  CheckingAccount.chargeMonthlyFee (c, w) = (inr false, (c, w)).
Proof.
intros Hge. unfold CheckingAccount.chargeMonthlyFee.
unfold bind, Account.field, this, gets. cbn [fst snd].
cbn [Account.super CheckingAccount.extends]. rewrite Hge. reflexivity.
Qed.

Lemma Account_constructor_returns (w : World) (customerId : Z)
    (initialBalance : float) (accountType : string) :
  Account.constructor false customerId (Some initialBalance) (Some accountType) w
  = (inr (account_opened w customerId initialBalance accountType),
     world_opened w initialBalance).
Proof.
unfold Account.constructor. rewrite addTransaction_returns. reflexivity.
Qed.

Lemma SavingsAccount_constructor_returns (w : World) (customerId : Z)
    (initialBalance : option float) :
  SavingsAccount.constructor customerId initialBalance w
  = (inr {| SavingsAccount.base :=
              account_opened w customerId (default 0%float initialBalance) "savings";
            SavingsAccount._interestRate := 0.02;
            SavingsAccount._minBalance := 100 |},
     world_opened w (default 0%float initialBalance)).
Proof.
unfold SavingsAccount.constructor, bind. rewrite Account_constructor_returns. reflexivity.
Qed.

Lemma CheckingAccount_constructor_returns (w : World) (customerId : Z)
    (initialBalance : option float) :
  CheckingAccount.constructor customerId initialBalance w
  = (inr {| CheckingAccount.base :=
              account_opened w customerId (default 0%float initialBalance) "checking";
            CheckingAccount._overdraftLimit := 500;
            CheckingAccount._monthlyFee := 10 |},
     world_opened w (default 0%float initialBalance)).
Proof.
unfold CheckingAccount.constructor, bind. rewrite Account_constructor_returns. reflexivity.
Qed.

(** What an operation that returned has done. *)
Lemma perform_cases (op : Operation) (o o' : AccountObject) (w w' : World) :
  let a := Account.super o in
  let n := length (heap w) in
  perform op (o, w) = (inr tt, (o', w')) ->
  match op with
  | Deposit amount =>
      (amount <=? 0)%float = false
      /\ o' = posted (Account._balance a + amount) (Account._todayWithdrawn a) n o
      /\ w' = world_after w
                [recorded w "deposit" amount (DepositTo (Account._accountNumber a))]
  | Withdraw amount =>
      (amount <=? 0)%float = false
      /\ Account.this_canWithdraw o amount = true
      /\ o' = posted (Account._balance a - amount) (Account._todayWithdrawn a + amount) n o
      /\ w' = world_after w
                [recorded w "withdrawal" amount (WithdrawalFrom (Account._accountNumber a))]
  | ApplyInterest months =>
      exists s, o = Savings s
      /\ let interest :=
           (Account._balance a * (SavingsAccount._interestRate s / 12)
            * default 1 months)%float in
         o' = posted (Account._balance a + interest) (Account._todayWithdrawn a) n o
         /\ w' = world_after w
                   [recorded w "interest" interest (InterestApplied (default 1%float months))]
  | ChargeMonthlyFee =>
      exists c, o = Checking c
      /\ let monthlyFee := CheckingAccount._monthlyFee c in
         ((Account._balance a >=? monthlyFee)%float = true
          /\ o' = posted (Account._balance a - monthlyFee) (Account._todayWithdrawn a) n o
          /\ w' = world_after w [recorded w "fee" (- monthlyFee) MonthlyMaintenanceFee])
         \/ ((Account._balance a >=? monthlyFee)%float = false /\ o' = o /\ w' = w)
  end.
Proof.
intros a n. subst a n. destruct op as [amount|amount|months|]; unfold perform, bind.
- destruct (amount <=? 0)%float eqn:Hle.
  + rewrite deposit_throws by exact Hle. discriminate.
  + rewrite deposit_returns by exact Hle. unfold ret. intros [= <- <-]. auto.
- destruct (amount <=? 0)%float eqn:Hle.
  + rewrite withdraw_not_positive by exact Hle. discriminate.
  + destruct (Account.this_canWithdraw o amount) eqn:Hcan.
    * rewrite withdraw_returns by assumption. unfold ret. intros [= <- <-]. auto.
    * rewrite withdraw_denied by assumption. discriminate.
- destruct o as [s|c]; [|discriminate]. unfold as_Savings.
  rewrite applyInterest_returns. unfold ret. intros [= <- <-].
  exists s. split; [reflexivity|]. split; reflexivity.
- destruct o as [s|c]; [discriminate|]. unfold as_Checking.
  destruct (Account._balance (CheckingAccount.base c) >=? CheckingAccount._monthlyFee c)%float
    eqn:Hge.
  + rewrite chargeMonthlyFee_charges by exact Hge. unfold ret. intros [= <- <-].
    exists c. split; [reflexivity|]. left. split; [exact Hge|]. split; reflexivity.
  + rewrite chargeMonthlyFee_skips by exact Hge. unfold ret. intros [= <- <-].
    exists c. split; [reflexivity|]. right. split; [exact Hge|]. split; reflexivity.
Qed.

(** * The ledger of an account *)

Lemma deref_grows (w w' : World) (refs : list loc) :
  valid w refs -> grows w w' -> deref w' refs = deref w refs.
Proof.
intros Hvalid [more Hmore]. unfold deref. rewrite Hmore.
induction Hvalid as [|l refs Hl _ IH]; [reflexivity|].
csimpl. rewrite lookup_app_l by exact Hl. rewrite IH. reflexivity.
Qed.

Lemma valid_grows (w w' : World) (refs : list loc) :
  valid w refs -> grows w w' -> valid w' refs.
Proof.
intros Hvalid [more Hmore]. unfold valid. rewrite Hmore, length_app.
eapply Forall_impl; [exact Hvalid|]. simpl. intros; lia.
Qed.

Lemma grows_world_after (w : World) (records : list Transaction.t) :
  grows w (world_after w records).
Proof. exists records. reflexivity. Qed.

Lemma deref_snoc (w : World) (refs : list loc) (tx : Transaction.t) :
  valid w refs ->
  deref (world_after w [tx]) (refs ++ [length (heap w)]) = deref w refs ++ [tx].
Proof.
intros Hvalid. unfold deref at 1. rewrite omap_app. f_equal.
- apply (deref_grows w (world_after w [tx])); [exact Hvalid | apply grows_world_after].
- csimpl. rewrite lookup_app_r by lia. rewrite Nat.sub_diag. reflexivity.
Qed.

Lemma total_snoc (value : Transaction.t -> float) (h : list Transaction.t) (t : Transaction.t) :
  h <> [] -> total value (h ++ [t]) = (total value h + value t)%float.
Proof.
destruct h as [|t0 h]; [congruence|]. intros _. simpl.
rewrite fold_left_app. reflexivity.
Qed.

Lemma completed_all (h : list Transaction.t) :
  Forall (fun t => Transaction.status t = "completed") h -> completed h = h.
Proof.
induction 1 as [|t h Ht _ IH]; [reflexivity|].
unfold completed in *. simpl. rewrite Ht. simpl. rewrite IH. reflexivity.
Qed.

Lemma posted_fields (balance todayWithdrawn : float) (l : loc) (o : AccountObject) :
  Account._balance (Account.super (posted balance todayWithdrawn l o)) = balance
  /\ Account._todayWithdrawn (Account.super (posted balance todayWithdrawn l o))
     = todayWithdrawn
  /\ Account._transactions (Account.super (posted balance todayWithdrawn l o))
     = Account._transactions (Account.super o) ++ [l]
  /\ Account._dailyWithdrawalLimit (Account.super (posted balance todayWithdrawn l o))
     = Account._dailyWithdrawalLimit (Account.super o).
Proof. unfold posted. rewrite super_set_super. simpl. auto. Qed.

Lemma balanced_posted (o : AccountObject) (w : World)
    (balance todayWithdrawn : float) (tx : Transaction.t) :
  balanced o w ->
  Transaction.status tx = "completed" ->
  balance = (Account._balance (Account.super o) + ledgerAmount tx)%float ->
  balanced (posted balance todayWithdrawn (length (heap w)) o) (world_after w [tx]).
Proof.
intros (Hvalid & Hne & Hdone & Hbal) Htx Hnew.
destruct (posted_fields balance todayWithdrawn (length (heap w)) o) as (Hb & _ & Ht & _).
unfold balanced, history. rewrite Hb, Ht, deref_snoc by exact Hvalid.
fold (history w o). repeat split.
- apply Forall_app. split.
  + apply (valid_grows w); [exact Hvalid | apply grows_world_after].
  + constructor; [|constructor]. simpl. rewrite length_app. simpl. lia.
- intros Happ. apply app_eq_nil in Happ. destruct Happ; discriminate.
- apply Forall_app. split; [exact Hdone|]. constructor; [exact Htx | constructor].
- rewrite total_snoc by exact Hne. rewrite <- Hbal. exact Hnew.
Qed.

Lemma balanced_opened (o : AccountObject) (w : World) : opened o w -> balanced o w.
Proof.
intros [customerId initialBalance w0 s w' Hnew | customerId initialBalance w0 c w' Hnew].
- rewrite SavingsAccount_constructor_returns in Hnew. injection Hnew as <- <-.
  unfold balanced, history, valid, deref. csimpl.
  rewrite lookup_app_r by lia. rewrite Nat.sub_diag. csimpl.
  repeat split; try (constructor; [|constructor]); try discriminate; try reflexivity.
  rewrite length_app. simpl. lia.
- rewrite CheckingAccount_constructor_returns in Hnew. injection Hnew as <- <-.
  unfold balanced, history, valid, deref. csimpl.
  rewrite lookup_app_r by lia. rewrite Nat.sub_diag. csimpl.
  repeat split; try (constructor; [|constructor]); try discriminate; try reflexivity.
  rewrite length_app. simpl. lia.
Qed.

Lemma balanced_grows (o : AccountObject) (w w' : World) :
  balanced o w -> grows w w' -> balanced o w'.
Proof.
intros (Hvalid & Hne & Hdone & Hbal) Hgrows. unfold balanced, history in *.
rewrite (deref_grows w w') by assumption.
repeat split; try assumption. apply (valid_grows w); assumption.
Qed.

Lemma balanced_perform (op : Operation) (o o' : AccountObject) (w w' : World) :
  balanced o w -> perform op (o, w) = (inr tt, (o', w')) -> balanced o' w'.
Proof.
intros Hinv Hop. apply perform_cases in Hop. cbn zeta in Hop.
destruct op as [amount|amount|months|].
- destruct Hop as (_ & -> & ->). apply balanced_posted; [exact Hinv | reflexivity..].
- destruct Hop as (_ & _ & -> & ->). apply balanced_posted; [exact Hinv | reflexivity|].
  unfold ledgerAmount. simpl. apply float_sub_add_opp.
- destruct Hop as (s & -> & -> & ->). apply balanced_posted; [exact Hinv | reflexivity..].
- destruct Hop as (c & -> & [(_ & -> & ->) | (_ & -> & ->)]); [|exact Hinv].
  apply balanced_posted; [exact Hinv | reflexivity|].
  unfold ledgerAmount. simpl. apply float_sub_add_opp.
Qed.

Lemma reachable_balanced (o : AccountObject) (w : World) : reachable o w -> balanced o w.
Proof.
induction 1 as [o w Hopen | o w op o' w' _ IH Hop | o w w' _ IH Hgrows].
- apply balanced_opened; exact Hopen.
- apply (balanced_perform op o o' w w'); assumption.
- apply (balanced_grows o w w'); assumption.
Qed.

(** ** Concrete accounts *)

Lemma opened_new_checking (w : World) (customerId : Z) (initialBalance : float) :
  opened (fst (new_checking w customerId initialBalance))
         (snd (new_checking w customerId initialBalance)).
Proof.
apply (opened_checking customerId (Some initialBalance) w).
apply CheckingAccount_constructor_returns.
Qed.

Lemma opened_new_savings (w : World) (customerId : Z) (initialBalance : float) :
  opened (fst (new_savings w customerId initialBalance))
         (snd (new_savings w customerId initialBalance)).
Proof.
apply (opened_savings customerId (Some initialBalance) w).
apply SavingsAccount_constructor_returns.
Qed.

Lemma reachable_run (ops : list Operation) (s : AccountObject * World) :
  reachable (fst s) (snd s) ->
  fst (run ops s) = inr tt ->
  reachable (fst (after ops s)) (snd (after ops s)).
Proof.
unfold after. revert s. induction ops as [|op ops IH]; intros [o w] Hreach Hrun.
- exact Hreach.
- simpl in *. unfold bind in *.
  destruct (perform op (o, w)) as [[e|[]] [o1 w1]] eqn:Hop; [discriminate|].
  apply IH; [|exact Hrun]. exact (reachable_perform o w op o1 w1 Hreach Hop).
Qed.

(** ** C1 *)

Ltac reach :=
  first
    [ apply reachable_run;
      [apply reachable_opened; first [apply opened_new_checking | apply opened_new_savings]
      | vm_compute; reflexivity]
    | apply reachable_opened; first [apply opened_new_checking | apply opened_new_savings] ].

Ltac floats_differ := apply float_neq; vm_compute; reflexivity.

(** C1, as stated, fails: under each uniform reading of "signed amount" there
    is an account whose balance is not the total of its completed records.
    After opening with 100 and withdrawing 30 the balance is 70 and the
    recorded amounts add up to 130; after opening with 100 and the monthly fee
    the balance is 90 and the amounts signed by type add up to 110 (the fee is
    recorded as -10 already); after opening with -50 the balance is -50 and
    the magnitudes signed by type add up to 50. *)
Lemma balance_differs_from_signed_total :
  (let (o, w) := after_withdrawal in
   reachable o w
   /\ Account._balance (Account.super o) = 70%float
   /\ total asRecorded (completed (history w o)) = 130%float
   /\ Account._balance (Account.super o) <> total asRecorded (completed (history w o)))
  /\ (let (o, w) := after_fee in
      reachable o w
      /\ Account._balance (Account.super o) = 90%float
      /\ total signedByType (completed (history w o)) = 110%float
      /\ Account._balance (Account.super o) <> total signedByType (completed (history w o)))
  /\ (let (o, w) := opened_negative in
      reachable o w
      /\ Account._balance (Account.super o) = (-50)%float
      /\ total magnitudeSignedByType (completed (history w o)) = 50%float
      /\ Account._balance (Account.super o)
         <> total magnitudeSignedByType (completed (history w o))).
Proof.
split; [|split].
- split; [exact (reachable_run [Withdraw 30] (new_checking fresh_world 1 100)
                   ltac:(reach) ltac:(vm_compute; reflexivity))|].
  split; [vm_compute; reflexivity|]. split; [vm_compute; reflexivity|]. floats_differ.
- split; [exact (reachable_run [ChargeMonthlyFee] (new_checking fresh_world 1 100)
                   ltac:(reach) ltac:(vm_compute; reflexivity))|].
  split; [vm_compute; reflexivity|]. split; [vm_compute; reflexivity|]. floats_differ.
- split; [exact (reachable_opened _ _ (opened_new_checking fresh_world 1 (-50)))|].
  split; [vm_compute; reflexivity|]. split; [vm_compute; reflexivity|]. floats_differ.
Qed.

(** C1, amended: after any sequence of deposits, withdrawals, interest and
    fee operations that returned, the balance of an account is the total of
    its completed records, a withdrawal counting against the account and every
    other record counting as the number it holds. *)
Theorem balance_is_ledger_total (o : AccountObject) (w : World) :
  reachable o w ->
  Account._balance (Account.super o) = total ledgerAmount (completed (history w o)).
Proof.
intros Hreach. destruct (reachable_balanced o w Hreach) as (_ & _ & Hdone & Hbal).
rewrite completed_all by exact Hdone. exact Hbal.
Qed.

(** The savings account opened with 1000, after a deposit of 250, a withdrawal
    of 300, a month of interest and a withdrawal of 0.1. *)
Lemma balance_is_ledger_total_witness :
  reachable (fst busy_savings) (snd busy_savings)
  /\ Account._balance (Account.super (fst busy_savings))
     = total ledgerAmount (completed (history (snd busy_savings) (fst busy_savings))).
Proof.
assert (Hreach : reachable (fst busy_savings) (snd busy_savings))
  by (unfold busy_savings; reach).
split; [exact Hreach | exact (balance_is_ledger_total _ _ Hreach)].
Defined.

(** * Transfers *)

Lemma call_returns {A} (account : Customer.ref) (method : M (AccountObject * World) A)
    (c : Customer.t) (w : World) (o : AccountObject) :
  Customer._accounts c !! account = Some o ->
  Customer.call account method (c, w)
  = (fst (method (o, w)),
     (Customer.set_accounts
        (<[account := fst (snd (method (o, w)))]> (Customer._accounts c)) c,
      snd (snd (method (o, w))))).
Proof.
intros Hlookup. unfold Customer.call. rewrite Hlookup.
destruct (method (o, w)) as [r [o' w']]. reflexivity.
Qed.

Lemma set_accounts_same (c : Customer.t) (account : Customer.ref) (o : AccountObject) :
  Customer._accounts c !! account = Some o ->
  Customer.set_accounts (<[account := o]> (Customer._accounts c)) c = c.
Proof. intros Hlookup. rewrite insert_id by exact Hlookup. destruct c; reflexivity. Qed.

Lemma bind_returns {S A B} (m : M S A) (k : A -> M S B) (s s' : S) (v : A) :
  m s = (inr v, s') -> bind m k s = k v s'.
Proof. intros Hm. unfold bind. rewrite Hm. reflexivity. Qed.

Lemma bind_throws {S A B} (m : M S A) (k : A -> M S B) (s s' : S) (e : Error) :
  m s = (inl e, s') -> bind m k s = (inl e, s').
Proof. intros Hm. unfold bind. rewrite Hm. reflexivity. Qed.

Lemma getAccount_returns (c : Customer.t) (w : World) (accountNumber : Z) :
  Customer.getAccount accountNumber (c, w)
  = (inr (match Customer._accounts c !! accountNumber with
          | Some _ => Some accountNumber
          | None => None
          end), (c, w)).
Proof. reflexivity. Qed.

(** An intermediate customer is the customer with another map. *)
Lemma call_on {A} (account : Customer.ref) (method : M (AccountObject * World) A)
    (c : Customer.t) (m : gmap Z AccountObject) (w w' : World) (o o' : AccountObject)
    (r : Error + A) :
  m !! account = Some o ->
  method (o, w) = (r, (o', w')) ->
  Customer.call account method (Customer.set_accounts m c, w)
  = (r, (Customer.set_accounts (<[account := o']> m) c, w')).
Proof.
intros Hlookup Hmethod. unfold Customer.call. cbn [Customer._accounts Customer.set_accounts].
rewrite Hlookup, Hmethod. reflexivity.
Qed.

Lemma set_accounts_id (c : Customer.t) : Customer.set_accounts (Customer._accounts c) c = c.
Proof. destruct c; reflexivity. Qed.

Lemma world_after_app (w : World) (r1 r2 : list Transaction.t) :
  world_after (world_after w r1) r2 = world_after w (r1 ++ r2).
Proof.
unfold world_after. simpl. rewrite length_app, Nat2Z.inj_add, Z.add_assoc, <- app_assoc.
reflexivity.
Qed.

Lemma balance_returns (o : AccountObject) (w : World) :
  Account.balance (o, w) = (inr (Account._balance (Account.super o)), (o, w)).
Proof. reflexivity. Qed.

Lemma transfer_returns (c : Customer.t) (w : World) (X Y : Z) (amount : float)
    (ox oy : AccountObject) :
  Customer._accounts c !! X = Some ox ->
  Customer._accounts c !! Y = Some oy ->
  X <> Y ->
  (amount <=? 0)%float = false ->
  Account.this_canWithdraw ox amount = true ->
  Customer.transfer X Y amount (c, w)
  = (inr ((Account._balance (Account.super ox) - amount)%float,
          (Account._balance (Account.super oy) + amount)%float),
     (Customer.set_accounts
        (<[Y := transfer_destination w amount oy]>
           (<[X := transfer_source w amount ox]> (Customer._accounts c))) c,
      world_after w
        (transfer_records w X Y (Account.super ox) (Account.super oy) amount))).
Proof.
intros HX HY Hne Hle Hcan.
rewrite <- (set_accounts_id c) at 1.
unfold Customer.transfer.
erewrite bind_returns by apply getAccount_returns.
erewrite bind_returns by apply getAccount_returns.
cbn [Customer._accounts Customer.set_accounts].
rewrite HX, HY. cbv beta iota.
destruct (decide _) as [|_]; [contradiction|].
erewrite bind_returns
  by (eapply call_on; [exact HX | apply withdraw_returns; assumption]).
erewrite bind_returns
  by (eapply call_on;
      [rewrite lookup_insert_ne by exact Hne; exact HY | apply deposit_returns; assumption]).
erewrite bind_returns
  by (eapply call_on;
      [rewrite lookup_insert_ne by congruence; apply lookup_insert_eq
      | apply addTransaction_returns]).
erewrite bind_returns
  by (eapply call_on;
      [rewrite lookup_insert_ne by exact Hne; apply lookup_insert_eq
      | apply addTransaction_returns]).
erewrite bind_returns
  by (eapply call_on;
      [rewrite lookup_insert_ne by congruence; apply lookup_insert_eq
      | apply balance_returns]).
erewrite bind_returns
  by (eapply call_on;
      [rewrite lookup_insert_ne by exact Hne; apply lookup_insert_eq
      | apply balance_returns]).
unfold ret, posted.
rewrite !world_after_app. cbn [app].
unfold world_after at 1 2 3 4 5 6. cbn [heap]. rewrite !length_app. cbn [length].
repeat (rewrite super_set_super || rewrite set_super_set_super).
rewrite (insert_insert_ne _ X Y) by congruence. rewrite !insert_insert_eq.
rewrite (insert_insert_ne _ X Y) by congruence. rewrite !insert_insert_eq.
unfold transfer_source, transfer_destination, transfer_records, world_after, recorded,
  Transaction.complete, Transaction.constructor, Transaction.set_status.
cbn [heap Transaction_idCounter now length app default Z.of_nat Pos.of_succ_nat Pos.succ
     Transaction.id Transaction.type Transaction.amount Transaction.description
     Transaction.timestamp Transaction.status].
rewrite !length_app. cbn [length].
rewrite ?Nat.add_succ_r, ?Nat.add_0_r.
destruct (Account.super ox), (Account.super oy).
cbn [Account._balance Account._transactions Account._todayWithdrawn Account.set_balance
     Account.set_transactions Account.set_todayWithdrawn Account._accountNumber
     Account._customerId Account._accountType Account._isActive
     Account._dailyWithdrawalLimit].
rewrite <- !app_assoc. reflexivity.
Qed.

(** A withdrawal returns only when both of its guards let it through, and
    otherwise throws without a trace. *)
Lemma withdraw_returned (o : AccountObject) (w : World) (amount v : float) :
  fst (Account.withdraw amount (o, w)) = inr v ->
  (amount <=? 0)%float = false /\ Account.this_canWithdraw o amount = true.
Proof.
destruct (amount <=? 0)%float eqn:Hle.
- rewrite withdraw_not_positive by exact Hle. discriminate.
- destruct (Account.this_canWithdraw o amount) eqn:Hcan; [auto|].
  rewrite withdraw_denied by assumption. discriminate.
Qed.

Lemma withdraw_refused (o : AccountObject) (w : World) (amount : float) :
  (amount <=? 0)%float = true \/ Account.this_canWithdraw o amount = false ->
  exists e, Account.withdraw amount (o, w) = (inl e, (o, w))
            /\ (kind e = InvalidAmount \/ kind e = WithdrawalDenied).
Proof.
intros Hrefused. destruct (amount <=? 0)%float eqn:Hle.
- exists WithdrawalNotPositive. rewrite withdraw_not_positive by exact Hle. auto.
- destruct Hrefused as [|Hcan]; [discriminate|].
  exists (CannotWithdraw amount). rewrite withdraw_denied by assumption. auto.
Qed.

(** ** C2 *)

(** C2: a transfer of [amount] between two distinct accounts of a customer,
    when the withdrawal from the source is permitted, returns the two new
    balances; the source holds [amount] less and two more records, a
    withdrawal and a transfer_out; the destination holds [amount] more and
    two more records, a deposit and a transfer_in; the four records, all of
    [amount] and completed, are the only new ones. *)
Theorem transfer_moves_amount (c : Customer.t) (w : World) (X Y : Z) (amount v : float)
    (ox oy : AccountObject) :
  Customer._accounts c !! X = Some ox ->
  Customer._accounts c !! Y = Some oy ->
  X <> Y ->
  fst (Account.withdraw amount (ox, w)) = inr v ->
  let n := length (heap w) in
  exists (c' : Customer.t) (w' : World) (ox' oy' : AccountObject)
         (withdrawal deposit transfer_out transfer_in : Transaction.t),
    Customer.transfer X Y amount (c, w)
    = (inr (Account._balance (Account.super ox'), Account._balance (Account.super oy')),
       (c', w'))
    /\ Customer._accounts c' !! X = Some ox'
    /\ Customer._accounts c' !! Y = Some oy'
    /\ Account._balance (Account.super ox')
       = (Account._balance (Account.super ox) - amount)%float
    /\ Account._balance (Account.super oy')
       = (Account._balance (Account.super oy) + amount)%float
    /\ heap w' = heap w ++ [withdrawal; deposit; transfer_out; transfer_in]
    /\ Account._transactions (Account.super ox')
       = Account._transactions (Account.super ox) ++ [n; (n + 2)%nat]
    /\ Account._transactions (Account.super oy')
       = Account._transactions (Account.super oy) ++ [(n + 1)%nat; (n + 3)%nat]
    /\ summary withdrawal = ("withdrawal", amount, "completed")
    /\ summary transfer_out = ("transfer_out", amount, "completed")
    /\ summary deposit = ("deposit", amount, "completed")
    /\ summary transfer_in = ("transfer_in", amount, "completed").
Proof.
intros HX HY Hne Hwithdraw n.
destruct (withdraw_returned ox w amount v Hwithdraw) as [Hle Hcan].
eexists _, _, (transfer_source w amount ox), (transfer_destination w amount oy), _, _, _, _.
split; [|split; [|split; [|split; [|split; [|split; [|split; [|split]]]]]]].
- rewrite (transfer_returns c w X Y amount ox oy) by assumption.
  unfold transfer_source, transfer_destination. rewrite !super_set_super.
  reflexivity.
- cbn [Customer._accounts Customer.set_accounts].
  rewrite lookup_insert_ne by congruence. apply lookup_insert_eq.
- cbn [Customer._accounts Customer.set_accounts]. apply lookup_insert_eq.
- unfold transfer_source. rewrite super_set_super. reflexivity.
- unfold transfer_destination. rewrite super_set_super. reflexivity.
- reflexivity.
- unfold transfer_source. rewrite super_set_super. subst n.
  replace (length (heap w) + 2)%nat with (S (S (length (heap w)))) by lia.
  reflexivity.
- unfold transfer_destination. rewrite super_set_super. subst n.
  replace (length (heap w) + 1)%nat with (S (length (heap w))) by lia.
  replace (length (heap w) + 3)%nat with (S (S (S (length (heap w))))) by lia.
  reflexivity.
- repeat split; reflexivity.
Qed.

(** ** C3 *)

(** C3: when the withdrawal from the source is refused, for a non-positive
    amount or by [_canWithdraw], the transfer throws what the withdrawal
    throws, and the customer, its accounts and the records are as before. *)
Theorem transfer_refused_changes_nothing (c : Customer.t) (w : World) (X Y : Z)
    (amount : float) (ox oy : AccountObject) :
  Customer._accounts c !! X = Some ox ->
  Customer._accounts c !! Y = Some oy ->
  X <> Y ->
  (amount <=? 0)%float = true \/ Account.this_canWithdraw ox amount = false ->
  exists e : Error,
    Account.withdraw amount (ox, w) = (inl e, (ox, w))
    /\ (kind e = InvalidAmount \/ kind e = WithdrawalDenied)
    /\ Customer.transfer X Y amount (c, w) = (inl e, (c, w)).
Proof.
intros HX HY Hne Hrefused.
destruct (withdraw_refused ox w amount Hrefused) as (e & Hthrows & Hkind).
exists e. split; [exact Hthrows|]. split; [exact Hkind|].
unfold Customer.transfer.
erewrite bind_returns by apply getAccount_returns.
erewrite bind_returns by apply getAccount_returns.
rewrite HX, HY. cbv beta iota.
destruct (decide _) as [|_]; [contradiction|].
erewrite bind_throws; [reflexivity|].
rewrite (call_returns X _ c w ox HX), Hthrows. cbn [fst snd].
rewrite set_accounts_same by exact HX. reflexivity.
Qed.

(** John moves 200 from his savings account (1000) to his checking account
    (100): 800 and 300 are left. *)
Lemma transfer_moves_amount_witness :
  exists s' : Customer.t * World,
    Customer.transfer 1001 1000 200 (fst john_with_accounts, snd john_with_accounts)
    = (inr (800%float, 300%float), s').
Proof.
destruct (transfer_moves_amount (fst john_with_accounts) (snd john_with_accounts)
            1001 1000 200 800
            (fst (new_savings (snd (new_checking fresh_world 1 100)) 1 1000))
            (fst (new_checking fresh_world 1 100)))
  as (c' & w' & ox' & oy' & r1 & r2 & r3 & r4 & Htransfer & _ & _ & Hx & Hy & _).
- vm_compute; reflexivity.
- vm_compute; reflexivity.
- lia.
- vm_compute; reflexivity.
- exists (c', w'). rewrite Htransfer, Hx, Hy. reflexivity.
Defined.

(** John may not move 950 out of his savings account: it would leave less
    than the minimum balance. *)
Lemma transfer_refused_changes_nothing_witness :
  exists e : Error,
    Customer.transfer 1001 1000 950 (fst john_with_accounts, snd john_with_accounts)
    = (inl e, (fst john_with_accounts, snd john_with_accounts)).
Proof.
destruct (transfer_refused_changes_nothing
            (fst john_with_accounts) (snd john_with_accounts) 1001 1000 950
            (fst (new_savings (snd (new_checking fresh_world 1 100)) 1 1000))
            (fst (new_checking fresh_world 1 100)))
  as (e & _ & _ & Htransfer).
- vm_compute; reflexivity.
- vm_compute; reflexivity.
- lia.
- right. vm_compute; reflexivity.
- exists e. exact Htransfer.
Defined.

(** ** C4 *)

(** C4, as stated, fails on both counts.  A checking account opened with 2000
    refuses a withdrawal of 1200, which is positive and within balance plus
    overdraft (2500): the daily limit of 1000 stands in the way.  And on a
    checking account opened with -600, one unit beyond balance plus overdraft
    is -99: the withdrawal fails as an invalid amount, not as a denied one. *)
Lemma withdrawal_within_overdraft_refused :
  (let (o, w) := new_checking fresh_world 1 2000 in
   opened o w
   /\ (0 <? 1200)%float = true
   /\ (1200 <=? Account._balance (Account.super o) + 500)%float = true
   /\ Account.withdraw 1200 (o, w) = (inl (CannotWithdraw 1200), (o, w)))
  /\ (let (o, w) := new_checking fresh_world 1 (-600) in
      opened o w
      /\ (Account._balance (Account.super o) + 500 + 1)%float = (-99)%float
      /\ Account.withdraw (-99) (o, w) = (inl WithdrawalNotPositive, (o, w))
      /\ kind WithdrawalNotPositive = InvalidAmount).
Proof.
split.
- split; [exact (opened_new_checking fresh_world 1 2000)|].
  repeat split; vm_compute; reflexivity.
- split; [exact (opened_new_checking fresh_world 1 (-600))|].
  repeat split; vm_compute; reflexivity.
Qed.

(** C4, amended: on a checking account, a withdrawal of a positive amount up
    to balance plus overdraft limit returns when the amount withdrawn today,
    with it, stays within the daily limit; a withdrawal of a positive amount
    beyond balance plus overdraft limit is denied. *)
Theorem checking_withdraw_overdraft (c : CheckingAccount.t) (w : World) (amount : float) :
  let a := CheckingAccount.base c in
  let available := (Account._balance a + CheckingAccount._overdraftLimit c)%float in
  (0 <? amount)%float = true ->
  ((amount <=? available)%float = true ->
   (Account._todayWithdrawn a + amount <=? Account._dailyWithdrawalLimit a)%float = true ->
   Account.withdraw amount (Checking c, w)
   = (inr (Account._balance a - amount)%float,
      (posted (Account._balance a - amount) (Account._todayWithdrawn a + amount)
         (length (heap w)) (Checking c),
       world_after w
         [recorded w "withdrawal" amount (WithdrawalFrom (Account._accountNumber a))])))
  /\ ((available <? amount)%float = true ->
      Account.withdraw amount (Checking c, w)
      = (inl (CannotWithdraw amount), (Checking c, w))
      /\ kind (CannotWithdraw amount) = WithdrawalDenied).
Proof.
cbv zeta. intros Hpos. apply float_ltb_leb_false in Hpos. split.
- intros Hfunds Hlimit.
  refine (withdraw_returns (T := AccountObject) (Checking c) w amount Hpos _).
  cbn [Account.this_canWithdraw AccountObject_extends]. unfold CheckingAccount._canWithdraw.
  unfold Number.geb. rewrite Hfunds, Hlimit. reflexivity.
- intros Hbeyond. apply float_ltb_leb_false in Hbeyond. split; [|reflexivity].
  refine (withdraw_denied (T := AccountObject) (Checking c) w amount Hpos _).
  cbn [Account.this_canWithdraw AccountObject_extends]. unfold CheckingAccount._canWithdraw.
  unfold Number.geb. rewrite Hbeyond. reflexivity.
Qed.

(** A checking account opened with 100 lets 600 go, down to -500, and
    refuses 601. *)
Lemma checking_withdraw_overdraft_witness :
  let (o, w) := new_checking fresh_world 1 100 in
  fst (Account.withdraw 600 (o, w)) = inr (-500)%float
  /\ Account.withdraw 601 (o, w) = (inl (CannotWithdraw 601), (o, w)).
Proof.
split.
- destruct (checking_withdraw_overdraft
              {| CheckingAccount.base := account_opened fresh_world 1 100 "checking";
                 CheckingAccount._overdraftLimit := 500;
                 CheckingAccount._monthlyFee := 10 |}
              (world_opened fresh_world 100) 600 ltac:(vm_compute; reflexivity))
    as [Hwithin _].
  rewrite Hwithin; vm_compute; reflexivity.
- destruct (checking_withdraw_overdraft
              {| CheckingAccount.base := account_opened fresh_world 1 100 "checking";
                 CheckingAccount._overdraftLimit := 500;
                 CheckingAccount._monthlyFee := 10 |}
              (world_opened fresh_world 100) 601 ltac:(vm_compute; reflexivity))
    as [_ Hbeyond].
  apply Hbeyond. vm_compute; reflexivity.
Defined.

(** ** C5 *)

(** Whatever its class, an account lets a withdrawal through only within the
    daily limit. *)
Lemma canWithdraw_within_limit (o : AccountObject) (amount : float) :
  Account.this_canWithdraw o amount = true ->
  (Account._todayWithdrawn (Account.super o) + amount
     <=? Account._dailyWithdrawalLimit (Account.super o))%float = true.
Proof.
destruct o as [s|c]; cbn [Account.this_canWithdraw AccountObject_extends Account.super].
- unfold SavingsAccount._canWithdraw, Account._canWithdraw.
  intros Hcan. apply andb_prop in Hcan as [Hparent _].
  apply andb_prop in Hparent as [_ Hlimit]. exact Hlimit.
- unfold CheckingAccount._canWithdraw.
  intros Hcan. apply andb_prop in Hcan as [_ Hlimit]. exact Hlimit.
Qed.

(** Every account the program builds has the daily limit of 1000, and has
    withdrawn today no more than that. *)
Lemma reachable_within_limit (o : AccountObject) (w : World) :
  reachable o w ->
  Account._dailyWithdrawalLimit (Account.super o) = 1000%float
  /\ (Account._todayWithdrawn (Account.super o) <=? 1000)%float = true.
Proof.
induction 1 as [o w Hopen | o w op o' w' _ [IHlimit IHtoday] Hop | o w w' _ IH _];
  [| |exact IH].
- destruct Hopen as [customerId initialBalance w0 s w' Hnew
                    | customerId initialBalance w0 c w' Hnew].
  + rewrite SavingsAccount_constructor_returns in Hnew. injection Hnew as <- _.
    split; reflexivity.
  + rewrite CheckingAccount_constructor_returns in Hnew. injection Hnew as <- _.
    split; reflexivity.
- apply perform_cases in Hop. cbn zeta in Hop.
  destruct op as [amount|amount|months|].
  + destruct Hop as (_ & -> & _).
    destruct (posted_fields (Account._balance (Account.super o) + amount)
                (Account._todayWithdrawn (Account.super o)) (length (heap w)) o)
      as (_ & -> & _ & ->). auto.
  + destruct Hop as (_ & Hcan & -> & _).
    destruct (posted_fields (Account._balance (Account.super o) - amount)
                (Account._todayWithdrawn (Account.super o) + amount) (length (heap w)) o)
      as (_ & -> & _ & ->).
    apply canWithdraw_within_limit in Hcan. rewrite IHlimit in Hcan. auto.
  + destruct Hop as (s & _ & Ho' & _). rewrite Ho'.
    match goal with
    | |- context [posted ?b ?t ?l o] =>
        destruct (posted_fields b t l o) as (_ & -> & _ & ->)
    end. auto.
  + destruct Hop as (c & _ & [(_ & Ho' & _) | (_ & -> & _)]); [|auto]. rewrite Ho'.
    match goal with
    | |- context [posted ?b ?t ?l o] =>
        destruct (posted_fields b t l o) as (_ & -> & _ & ->)
    end. auto.
Qed.

(** C5: on an account whose daily limit is 1000, a withdrawal that returns
    adds its amount to [todayWithdrawn] and leaves it at 1000 at most, the
    limit unchanged; a withdrawal that would take it beyond 1000 throws and
    changes nothing, whatever the amount and the funds. *)
Theorem todayWithdrawn_within_limit (o : AccountObject) (w : World) (amount : float) :
  let a := Account.super o in
  Account._dailyWithdrawalLimit a = 1000%float ->
  (forall (v : float) (o' : AccountObject) (w' : World),
     Account.withdraw amount (o, w) = (inr v, (o', w')) ->
     Account._todayWithdrawn (Account.super o') = (Account._todayWithdrawn a + amount)%float
     /\ (Account._todayWithdrawn (Account.super o') <=? 1000)%float = true
     /\ Account._dailyWithdrawalLimit (Account.super o') = 1000%float)
  /\ ((1000 <? Account._todayWithdrawn a + amount)%float = true ->
      exists e : Error, Account.withdraw amount (o, w) = (inl e, (o, w))).
Proof.
cbv zeta. intros Hlimit. split.
- intros v o' w' Hwithdraw.
  destruct (withdraw_returned o w amount v) as [Hle Hcan]; [rewrite Hwithdraw; reflexivity|].
  rewrite (withdraw_returns (T := AccountObject) o w amount Hle Hcan) in Hwithdraw.
  apply (f_equal (fun r => fst (snd r))) in Hwithdraw. cbn [fst snd] in Hwithdraw.
  subst o'.
  destruct (posted_fields (Account._balance (Account.super o) - amount)
              (Account._todayWithdrawn (Account.super o) + amount) (length (heap w)) o)
    as (_ & -> & _ & ->).
  apply canWithdraw_within_limit in Hcan. rewrite Hlimit in Hcan. auto.
- intros Hbeyond. apply float_ltb_leb_false in Hbeyond.
  destruct (withdraw_refused o w amount) as (e & Hthrows & _); [|exists e; exact Hthrows].
  right. destruct (Account.this_canWithdraw o amount) eqn:Hcan; [|reflexivity].
  apply canWithdraw_within_limit in Hcan. rewrite Hlimit in Hcan. congruence.
Qed.

(** Two withdrawals of 600 from a savings account opened with 5000: the first
    returns 4400 with 600 withdrawn today, the second is refused. *)
Lemma todayWithdrawn_within_limit_witness :
  let s0 := new_savings fresh_world 1 5000 in
  let s1 := after [Withdraw 600] s0 in
  Account.withdraw 600 s0 = (inr 4400%float, s1)
  /\ Account._todayWithdrawn (Account.super (fst s1)) = 600%float
  /\ exists e : Error, Account.withdraw 600 s1 = (inl e, s1).
Proof.
cbv zeta. split; [vm_compute; reflexivity|]. split.
- destruct (todayWithdrawn_within_limit (fst (new_savings fresh_world 1 5000))
              (snd (new_savings fresh_world 1 5000)) 600 ltac:(reflexivity))
    as [Haccumulates _].
  destruct (Haccumulates 4400%float
              (fst (after [Withdraw 600] (new_savings fresh_world 1 5000)))
              (snd (after [Withdraw 600] (new_savings fresh_world 1 5000)))
              ltac:(vm_compute; reflexivity)) as (-> & _).
  vm_compute; reflexivity.
- destruct (todayWithdrawn_within_limit
              (fst (after [Withdraw 600] (new_savings fresh_world 1 5000)))
              (snd (after [Withdraw 600] (new_savings fresh_world 1 5000)))
              600 ltac:(reflexivity)) as [_ Hblocked].
  destruct Hblocked as [e He]; [vm_compute; reflexivity|].
  exists e. exact He.
Defined.

(** ** C6 *)

(** C6: on a savings account, a withdrawal of a positive amount that would
    leave less than the minimum balance is denied, and nothing changes:
    balance, amount withdrawn today and records are as before. *)
Theorem savings_minimum_balance (s : SavingsAccount.t) (w : World) (amount : float) :
  let a := SavingsAccount.base s in
  (0 <? amount)%float = true ->
  (Account._balance a - amount <? SavingsAccount._minBalance s)%float = true ->
  Account.withdraw amount (Savings s, w) = (inl (CannotWithdraw amount), (Savings s, w))
  /\ kind (CannotWithdraw amount) = WithdrawalDenied.
Proof.
cbv zeta. intros Hpos Hbelow. split; [|reflexivity].
apply float_ltb_leb_false in Hpos. apply float_ltb_leb_false in Hbelow.
refine (withdraw_denied (T := AccountObject) (Savings s) w amount Hpos _).
cbn [Account.this_canWithdraw AccountObject_extends]. unfold SavingsAccount._canWithdraw.
unfold Number.geb. rewrite Hbelow. apply andb_false_r.
Qed.

(** A savings account opened with 1000 refuses to let 950 go. *)
Lemma savings_minimum_balance_witness :
  let (o, w) := new_savings fresh_world 1 1000 in
  Account.withdraw 950 (o, w) = (inl (CannotWithdraw 950), (o, w)).
Proof.
apply (savings_minimum_balance
         {| SavingsAccount.base := account_opened fresh_world 1 1000 "savings";
            SavingsAccount._interestRate := 0.02;
            SavingsAccount._minBalance := 100 |}
         (world_opened fresh_world 1000) 950);
  vm_compute; reflexivity.
Defined.

(** ** C7 *)

(** C7: on a savings account with the rate of 0.02, [calculateInterest]
    returns balance * (0.02 / 12) * months and changes nothing;
    [applyInterest] returns the same amount, adds it to the balance and
    records it as one completed interest transaction. *)
Theorem interest_is_calculated_and_applied (s : SavingsAccount.t) (w : World)
    (months : option float) :
  let a := SavingsAccount.base s in
  let interest := (Account._balance a * (0.02 / 12) * default 1 months)%float in
  SavingsAccount._interestRate s = 0.02%float ->
  SavingsAccount.calculateInterest months (s, w) = (inr interest, (s, w))
  /\ exists (s' : SavingsAccount.t) (w' : World) (record : Transaction.t),
       SavingsAccount.applyInterest months (s, w) = (inr interest, (s', w'))
       /\ Account._balance (SavingsAccount.base s') = (Account._balance a + interest)%float
       /\ Account._todayWithdrawn (SavingsAccount.base s') = Account._todayWithdrawn a
       /\ Account._transactions (SavingsAccount.base s')
          = Account._transactions a ++ [length (heap w)]
       /\ heap w' = heap w ++ [record]
       /\ summary record = ("interest", interest, "completed").
Proof.
cbv zeta. intros Hrate. split.
- rewrite calculateInterest_returns, Hrate. reflexivity.
- rewrite applyInterest_returns, Hrate. cbv zeta.
  eexists _, _, _. split; [reflexivity|]. repeat split.
Qed.

(** A month of interest on 1000. *)
Lemma interest_is_calculated_and_applied_witness :
  let s := {| SavingsAccount.base := account_opened fresh_world 1 1000 "savings";
              SavingsAccount._interestRate := 0.02;
              SavingsAccount._minBalance := 100 |} in
  let w := world_opened fresh_world 1000 in
  SavingsAccount.calculateInterest None (s, w) = (inr 1.6666666666666667%float, (s, w))
  /\ exists s' w',
       SavingsAccount.applyInterest (Some 1%float) (s, w)
       = (inr 1.6666666666666667%float, (s', w'))
       /\ Account._balance (SavingsAccount.base s') = 1001.6666666666666%float.
Proof.
cbv zeta. split.
- exact (proj1 (interest_is_calculated_and_applied _ (world_opened fresh_world 1000) None
                  (eq_refl : SavingsAccount._interestRate
                               {| SavingsAccount.base :=
                                    account_opened fresh_world 1 1000 "savings";
                                  SavingsAccount._interestRate := 0.02;
                                  SavingsAccount._minBalance := 100 |} = 0.02%float))).
- destruct (interest_is_calculated_and_applied
              {| SavingsAccount.base := account_opened fresh_world 1 1000 "savings";
                 SavingsAccount._interestRate := 0.02;
                 SavingsAccount._minBalance := 100 |}
              (world_opened fresh_world 1000) (Some 1%float) eq_refl)
    as (_ & s' & w' & record & Happly & Hbalance & _).
  exists s', w'. split; [exact Happly | rewrite Hbalance; reflexivity].
Defined.

(** ** C8 *)

(** C8: once a bank exists, [getInstance] returns it as it is and leaves it
    alone, whatever the arguments; so does [new Bank].  The first call makes
    the bank from its arguments, and a second call with other arguments
    returns that bank, name and location included. *)
Theorem getInstance_returns_the_one_bank :
  (forall (name location : option string) (b : Bank.t),
     Bank.getInstance name location (Some b) = (inr (Some b), Some b))
  /\ (forall (name location : string) (b : Bank.t),
        Bank.constructor name location (Some b) = (inr b, Some b))
  /\ (forall name1 location1 name2 location2 : option string,
        exists b : Bank.t,
          Bank.getInstance name1 location1 None = (inr (Some b), Some b)
          /\ Bank._bankName b = default "Default" name1
          /\ Bank._location b = default "Unknown" location1
          /\ Bank.getInstance name2 location2 (Some b) = (inr (Some b), Some b)).
Proof.
split; [|split].
- reflexivity.
- reflexivity.
- intros name1 location1 name2 location2. eexists.
  split; [reflexivity|]. split; [reflexivity|]. split; reflexivity.
Qed.

(** ** C9 *)

(** The first element of the array the getter returns is the account's own
    first record: failing it through the view fails it in the store the
    account reads its history from, and leaves the account object alone. *)
Lemma view_shares_records (o : AccountObject) (w : World) (first : loc) (rest : list loc)
    (t : Transaction.t) :
  Account._transactions (Account.super o) = first :: rest ->
  heap w !! first = Some t ->
  exists w' : World,
    fail_first_of_view (o, w) = (inr tt, (o, w'))
    /\ heap w' !! first = Some (Transaction.fail t).
Proof.
intros Hrefs Hfirst.
unfold fail_first_of_view, bind, Account.transactions, Account.field, this, gets.
cbn [fst snd]. rewrite Hrefs.
eexists. split; [reflexivity|].
cbn [fst snd heap set_heap]. rewrite list_lookup_alter_eq.
exact (f_equal (fmap Transaction.fail) Hfirst).
Qed.

(** C9 does not hold of the code: the array the getter returns is new, the
    records in it are the account's own.  On a checking account opened with
    100, failing the first element of the view turns the account's opening
    record from completed to failed; the account object itself is the same. *)
Lemma view_mutation_reaches_history :
  let (o, w) := new_checking fresh_world 1 100 in
  let (o', w') := snd (fail_first_of_view (o, w)) in
  o' = o
  /\ summary <$> history w o = [("account_opening", 100%float, "completed")]
  /\ summary <$> history w' o' = [("account_opening", 100%float, "failed")].
Proof. vm_compute. repeat split; reflexivity. Qed.

(** ** C10 *)

(** C10: [openAccount] throws exactly when the type, in lower case, is
    neither 'savings' nor 'checking', and then changes nothing.  Otherwise it
    returns, whatever the initial deposit, negative ones included: the new
    account is stored under the next account number, its balance is the
    deposit, and its history is one completed account_opening record of that
    amount. *)
Theorem openAccount_rejects_unknown_types_only (c : Customer.t) (w : World)
    (accountType : string) (initialDeposit : option float) :
  let type := toLowerCase accountType in
  let deposit := default 0%float initialDeposit in
  let known := type = "savings" \/ type = "checking" in
  ((exists e : Error, fst (Customer.openAccount accountType initialDeposit (c, w)) = inl e)
   <-> ~ known)
  /\ (~ known ->
      Customer.openAccount accountType initialDeposit (c, w)
      = (inl (UnknownAccountTypeOf accountType), (c, w)))
  /\ (known ->
      exists (c' : Customer.t) (w' : World) (o : AccountObject),
        Customer.openAccount accountType initialDeposit (c, w)
        = (inr (Account_accountCounter w), (c', w'))
        /\ Customer._accounts c' !! Account_accountCounter w = Some o
        /\ o = account_of_type w (Customer._customerId c) deposit type
        /\ Account._balance (Account.super o) = deposit
        /\ summary <$> history w' o = [("account_opening", deposit, "completed")]).
Proof.
cbv zeta.
assert (Hunknown :
  ~ (toLowerCase accountType = "savings" \/ toLowerCase accountType = "checking") ->
  Customer.openAccount accountType initialDeposit (c, w)
  = (inl (UnknownAccountTypeOf accountType), (c, w))).
{ intros Hnot. unfold Customer.openAccount.
  destruct (String.eqb_spec (toLowerCase accountType) "savings") as [Hs|_]; [tauto|].
  destruct (String.eqb_spec (toLowerCase accountType) "checking") as [Hc|_]; [tauto|].
  reflexivity. }
assert (Hknown :
  toLowerCase accountType = "savings" \/ toLowerCase accountType = "checking" ->
  exists (c' : Customer.t) (w' : World) (o : AccountObject),
    Customer.openAccount accountType initialDeposit (c, w)
    = (inr (Account_accountCounter w), (c', w'))
    /\ Customer._accounts c' !! Account_accountCounter w = Some o
    /\ o = account_of_type w (Customer._customerId c) (default 0%float initialDeposit)
             (toLowerCase accountType)
    /\ Account._balance (Account.super o) = default 0%float initialDeposit
    /\ summary <$> history w' o
       = [("account_opening", default 0%float initialDeposit, "completed")]).
{ intros Hor. unfold Customer.openAccount, account_of_type.
  assert (Hhistory : forall o : AccountObject,
    Account._transactions (Account.super o) = [length (heap w)] ->
    summary <$> history (world_opened w (default 0%float initialDeposit)) o
    = [("account_opening", default 0%float initialDeposit, "completed")]).
  { intros o Ho. unfold history, deref. rewrite Ho. csimpl.
    rewrite lookup_app_r by lia. rewrite Nat.sub_diag. reflexivity. }
  destruct (String.eqb_spec (toLowerCase accountType) "savings") as [Hs|Hs].
  - eexists _, _, _. split.
    + unfold bind at 1, this at 1, gets at 1. cbn [fst snd].
      unfold bind at 1. unfold bind at 1, global at 1, zoom at 1. cbn [fst snd].
      rewrite SavingsAccount_constructor_returns. reflexivity.
    + split; [apply lookup_insert_eq|]. split; [reflexivity|]. split; [reflexivity|].
      apply Hhistory. reflexivity.
  - destruct Hor as [|Hc]; [contradiction|].
    destruct (String.eqb_spec (toLowerCase accountType) "checking") as [_|]; [|contradiction].
    eexists _, _, _. split.
    + unfold bind at 1, this at 1, gets at 1. cbn [fst snd].
      unfold bind at 1. unfold bind at 1, global at 1, zoom at 1. cbn [fst snd].
      rewrite CheckingAccount_constructor_returns. reflexivity.
    + split; [apply lookup_insert_eq|]. split; [reflexivity|]. split; [reflexivity|].
      apply Hhistory. reflexivity. }
split; [|split; assumption].
split.
- intros [e He] Hor. destruct (Hknown Hor) as (c' & w' & o & Hopen & _).
  rewrite Hopen in He. discriminate.
- intros Hnot. exists (UnknownAccountTypeOf accountType). rewrite Hunknown by exact Hnot.
  reflexivity.
Qed.

(** A savings account opened with -50, the type in mixed case. *)
Lemma openAccount_accepts_negative_deposit :
  exists (c' : Customer.t) (w' : World) (o : AccountObject),
    Customer.openAccount "SaViNgS" (Some (-50)%float) (john, fresh_world)
    = (inr 1000, (c', w'))
    /\ Customer._accounts c' !! 1000 = Some o
    /\ Account._balance (Account.super o) = (-50)%float
    /\ summary <$> history w' o = [("account_opening", (-50)%float, "completed")].
Proof.
destruct (openAccount_rejects_unknown_types_only john fresh_world "SaViNgS"
            (Some (-50)%float)) as (_ & _ & Hknown).
destruct Hknown as (c' & w' & o & Hopen & Hstored & _ & Hbalance & Hhistory);
  [left; reflexivity|].
exists c', w', o. auto.
Defined.

(** * More about the operations of an account *)

(** ** NaN *)




(** ** deposit *)

(** X1: [deposit] throws on an amount that is zero or less and then changes
    nothing; on any other amount it returns the new balance, balance + amount,
    and leaves one more record on the account, a completed deposit of that
    amount; the amount withdrawn today is not touched. *)
Theorem deposit_rejects_or_credits (o : AccountObject) (w : World) (amount : float) :
  let a := Account.super o in
  ((amount <=? 0)%float = true ->
   Account.deposit amount (o, w) = (inl DepositNotPositive, (o, w))
   /\ kind DepositNotPositive = InvalidAmount)
  /\ ((amount <=? 0)%float = false ->
      exists (o' : AccountObject) (w' : World) (record : Transaction.t),
        Account.deposit amount (o, w) = (inr (Account._balance a + amount)%float, (o', w'))
        /\ Account._balance (Account.super o') = (Account._balance a + amount)%float
        /\ Account._todayWithdrawn (Account.super o') = Account._todayWithdrawn a
        /\ Account._transactions (Account.super o')
           = Account._transactions a ++ [length (heap w)]
        /\ heap w' = heap w ++ [record]
        /\ summary record = ("deposit", amount, "completed")).
Proof.
cbv zeta. split.
- intros Hle. split; [|reflexivity]. apply deposit_throws. exact Hle.
- intros Hle. rewrite (deposit_returns (T := AccountObject) o w amount Hle).
  eexists _, _, _. split; [reflexivity|].
  destruct (posted_fields (Account._balance (Account.super o) + amount)
              (Account._todayWithdrawn (Account.super o)) (length (heap w)) o)
    as (Hb & Ht & Hrefs & _).
  rewrite Hb, Ht, Hrefs. repeat split.
Qed.


(** ** Nothing by halves *)

Lemma perform_throws (op : Operation) (o : AccountObject)
    (w : World) (e : Error) (s' : AccountObject * World) :
  perform op (o, w) = (inl e, s') -> s' = (o, w).
Proof.
destruct op as [amount|amount|months|]; unfold perform, bind.
- destruct (amount <=? 0)%float eqn:Hle.
  + rewrite deposit_throws by exact Hle. congruence.
  + rewrite deposit_returns by exact Hle. discriminate.
- destruct (amount <=? 0)%float eqn:Hle.
  + rewrite withdraw_not_positive by exact Hle. congruence.
  + destruct (Account.this_canWithdraw o amount) eqn:Hcan.
    * rewrite withdraw_returns by assumption. discriminate.
    * rewrite withdraw_denied by assumption. congruence.
- destruct o as [s|c]; unfold as_Savings; [|congruence].
  rewrite applyInterest_returns. discriminate.
- destruct o as [s|c]; unfold as_Checking; [congruence|].
  destruct (Account._balance (CheckingAccount.base c) >=? CheckingAccount._monthlyFee c)%float
    eqn:Hge.
  + rewrite chargeMonthlyFee_charges by exact Hge. discriminate.
  + rewrite chargeMonthlyFee_skips by exact Hge. discriminate.
Qed.

(** X3: an operation of an account that throws has changed nothing: neither the
    account nor the records nor the counters. *)
Theorem operation_that_throws_changes_nothing (op : Operation) (o : AccountObject)
    (w : World) (e : Error) (s' : AccountObject * World) :
  perform op (o, w) = (inl e, s') -> s' = (o, w).
Proof. exact (perform_throws op o w e s'). Qed.

(** A withdrawal of 30 from a savings account that holds 100. *)
Lemma operation_that_throws_changes_nothing_witness :
  perform (Withdraw 30) (new_savings fresh_world 1 100)
  = (inl (CannotWithdraw 30), new_savings fresh_world 1 100).
Proof.
assert (Hthrows : perform (Withdraw 30) (new_savings fresh_world 1 100)
                  = (inl (CannotWithdraw 30), snd (perform (Withdraw 30)
                                                     (new_savings fresh_world 1 100))))
  by (vm_compute; reflexivity).
rewrite Hthrows.
rewrite (operation_that_throws_changes_nothing (Withdraw 30)
           (fst (new_savings fresh_world 1 100)) (snd (new_savings fresh_world 1 100))
           (CannotWithdraw 30) _ Hthrows).
reflexivity.
Defined.

(** ** The floor of a savings account *)

(** X4: a withdrawal from a savings account that returns leaves at least the
    minimum balance: the balance it returns and stores is the very number the
    guard compared with [_minBalance]. *)
Theorem savings_withdrawal_keeps_minimum (s : SavingsAccount.t) (w : World)
    (amount v : float) (o' : AccountObject) (w' : World) :
  Account.withdraw amount (Savings s, w) = (inr v, (o', w')) ->
  Account._balance (Account.super o') = v
  /\ (v >=? SavingsAccount._minBalance s)%float = true.
Proof.
intros Hwithdraw.
destruct (withdraw_returned (Savings s) w amount v) as [Hle Hcan];
  [rewrite Hwithdraw; reflexivity|].
rewrite (withdraw_returns (T := AccountObject) (Savings s) w amount Hle Hcan) in Hwithdraw.
assert (Hv : v = (Account._balance (Account.super (Savings s)) - amount)%float)
  by (apply (f_equal fst) in Hwithdraw; cbn [fst] in Hwithdraw; congruence).
apply (f_equal (fun r => fst (snd r))) in Hwithdraw. cbn [fst snd] in Hwithdraw.
subst o' v. split; [reflexivity|].
cbn [Account.this_canWithdraw AccountObject_extends] in Hcan.
unfold SavingsAccount._canWithdraw in Hcan. apply andb_prop in Hcan as [_ Hfloor].
exact Hfloor.
Qed.

(** 900 leave a savings account opened with 1000: exactly the minimum stays. *)
Lemma savings_withdrawal_keeps_minimum_witness :
  exists s' : AccountObject * World,
    Account.withdraw 900 (new_savings fresh_world 1 1000) = (inr 100%float, s')
    /\ Account._balance (Account.super (fst s')) = 100%float.
Proof.
exists (snd (Account.withdraw 900 (new_savings fresh_world 1 1000))).
assert (Hreturns : Account.withdraw 900 (new_savings fresh_world 1 1000)
                   = (inr 100%float,
                      (fst (snd (Account.withdraw 900 (new_savings fresh_world 1 1000))),
                       snd (snd (Account.withdraw 900 (new_savings fresh_world 1 1000))))))
  by (vm_compute; reflexivity).
split; [vm_compute; reflexivity|].
exact (proj1 (savings_withdrawal_keeps_minimum _ _ 900 100 _ _ Hreturns)).
Defined.

(** ** The monthly fee *)

(** X5: [chargeMonthlyFee] charges exactly when the balance covers the fee: it
    then returns true, takes the fee off the balance and records a completed
    fee transaction whose amount is minus the fee; otherwise it returns false
    and changes nothing.  Either way the amount withdrawn today stays. *)
Theorem monthly_fee_charged_or_skipped (c : CheckingAccount.t) (w : World) :
  let a := CheckingAccount.base c in
  let monthlyFee := CheckingAccount._monthlyFee c in
  if (Account._balance a >=? monthlyFee)%float
  then exists (c' : CheckingAccount.t) (w' : World) (record : Transaction.t),
         CheckingAccount.chargeMonthlyFee (c, w) = (inr true, (c', w'))
         /\ Account._balance (CheckingAccount.base c')
            = (Account._balance a - monthlyFee)%float
         /\ Account._todayWithdrawn (CheckingAccount.base c') = Account._todayWithdrawn a
         /\ Account._transactions (CheckingAccount.base c')
            = Account._transactions a ++ [length (heap w)]
         /\ heap w' = heap w ++ [record]
         /\ summary record = ("fee", (- monthlyFee)%float, "completed")
  else CheckingAccount.chargeMonthlyFee (c, w) = (inr false, (c, w)).
Proof.
cbv zeta.
destruct (Account._balance (CheckingAccount.base c) >=? CheckingAccount._monthlyFee c)%float
  eqn:Hge.
- rewrite chargeMonthlyFee_charges by exact Hge. cbv zeta.
  eexists _, _, _. split; [reflexivity|]. repeat split.
- apply chargeMonthlyFee_skips. exact Hge.
Qed.

(** * More about transfers *)

Lemma transfer_not_found (c : Customer.t) (w : World) (X Y : Z) (amount : float) :
  Customer._accounts c !! X = None \/ Customer._accounts c !! Y = None ->
  Customer.transfer X Y amount (c, w) = (inl AccountsNotFound, (c, w)).
Proof.
intros Hmissing. unfold Customer.transfer.
erewrite bind_returns by apply getAccount_returns.
erewrite bind_returns by apply getAccount_returns.
destruct Hmissing as [-> | ->]; [reflexivity|].
destruct (Customer._accounts c !! X); reflexivity.
Qed.

Lemma transfer_same (c : Customer.t) (w : World) (X : Z) (amount : float) :
  is_Some (Customer._accounts c !! X) ->
  Customer.transfer X X amount (c, w) = (inl SameAccount, (c, w)).
Proof.
intros [o Ho]. unfold Customer.transfer.
erewrite bind_returns by apply getAccount_returns.
erewrite bind_returns by apply getAccount_returns.
rewrite Ho. cbv beta iota.
destruct (decide _) as [_|Hne]; [reflexivity | contradiction].
Qed.

Lemma transfer_refused (c : Customer.t) (w : World) (X Y : Z) (amount : float)
    (ox oy : AccountObject) (e : Error) :
  Customer._accounts c !! X = Some ox ->
  Customer._accounts c !! Y = Some oy ->
  X <> Y ->
  Account.withdraw amount (ox, w) = (inl e, (ox, w)) ->
  Customer.transfer X Y amount (c, w) = (inl e, (c, w)).
Proof.
intros HX HY Hne Hthrows. unfold Customer.transfer.
erewrite bind_returns by apply getAccount_returns.
erewrite bind_returns by apply getAccount_returns.
rewrite HX, HY. cbv beta iota.
destruct (decide _) as [|_]; [contradiction|].
erewrite bind_throws; [reflexivity|].
rewrite (call_returns X _ c w ox HX), Hthrows. cbn [fst snd].
rewrite set_accounts_same by exact HX. reflexivity.
Qed.

(** The outcomes of a transfer, all of them. *)
Lemma transfer_cases (c : Customer.t) (w : World) (X Y : Z) (amount : float) :
  (exists e : Error, Customer.transfer X Y amount (c, w) = (inl e, (c, w)))
  \/ (exists ox oy : AccountObject,
        Customer._accounts c !! X = Some ox
        /\ Customer._accounts c !! Y = Some oy
        /\ X <> Y
        /\ (amount <=? 0)%float = false
        /\ Account.this_canWithdraw ox amount = true
        /\ Customer.transfer X Y amount (c, w)
           = (inr ((Account._balance (Account.super ox) - amount)%float,
                   (Account._balance (Account.super oy) + amount)%float),
              (Customer.set_accounts
                 (<[Y := transfer_destination w amount oy]>
                    (<[X := transfer_source w amount ox]> (Customer._accounts c))) c,
               world_after w
                 (transfer_records w X Y (Account.super ox) (Account.super oy) amount)))).
Proof.
destruct (Customer._accounts c !! X) as [ox|] eqn:HX;
  [|left; eexists; apply transfer_not_found; auto].
destruct (Customer._accounts c !! Y) as [oy|] eqn:HY;
  [|left; eexists; apply transfer_not_found; auto].
destruct (decide (X = Y)) as [->|Hne].
{ left. eexists. apply transfer_same. rewrite HX. eauto. }
destruct (amount <=? 0)%float eqn:Hle.
{ left. eexists. eapply transfer_refused; eauto. apply withdraw_not_positive. exact Hle. }
destruct (Account.this_canWithdraw ox amount) eqn:Hcan.
- right. exists ox, oy. repeat (split; [first [assumption | reflexivity]|]).
  apply transfer_returns; assumption.
- left. eexists. eapply transfer_refused; eauto. apply withdraw_denied; assumption.
Qed.

(** X6: [transfer] looks for the two accounts before anything else: with either
    of them missing it throws that they were not found, and with both numbers
    naming one account it throws that they are the same, whatever the amount
    and the funds; in both cases nothing changes. *)
Theorem transfer_checks_the_accounts_first (c : Customer.t) (w : World) (X Y : Z)
    (amount : float) :
  (Customer._accounts c !! X = None \/ Customer._accounts c !! Y = None ->
   Customer.transfer X Y amount (c, w) = (inl AccountsNotFound, (c, w))
   /\ kind AccountsNotFound = AccountNotFound)
  /\ (is_Some (Customer._accounts c !! X) -> X = Y ->
      Customer.transfer X Y amount (c, w) = (inl SameAccount, (c, w))
      /\ kind SameAccount = SameAccountTransfer).
Proof.
split.
- intros Hmissing. split; [|reflexivity]. apply transfer_not_found. exact Hmissing.
- intros Hfound <-. split; [|reflexivity]. apply transfer_same. exact Hfound.
Qed.

(** X7: a transfer is all or nothing: when it throws, whatever the reason, the
    customer, both accounts and the records are as they were.  The deposit on
    the destination cannot fail once the withdrawal has gone through, both
    test the same amount. *)
Theorem transfer_is_all_or_nothing (c : Customer.t) (w : World) (X Y : Z)
    (amount : float) (e : Error) (s' : Customer.t * World) :
  Customer.transfer X Y amount (c, w) = (inl e, s') -> s' = (c, w).
Proof.
intros Hthrows.
destruct (transfer_cases c w X Y amount)
  as [[e' He'] | (ox & oy & _ & _ & _ & _ & _ & Hreturns)];
  congruence.
Qed.

(** John has no account 7 to send money to. *)
Lemma transfer_is_all_or_nothing_witness :
  Customer.transfer 1000 7 50 john_with_accounts = (inl AccountsNotFound, john_with_accounts).
Proof.
assert (Hthrows : Customer.transfer 1000 7 50 (fst john_with_accounts, snd john_with_accounts)
                  = (inl AccountsNotFound,
                     snd (Customer.transfer 1000 7 50 john_with_accounts)))
  by (vm_compute; reflexivity).
change john_with_accounts with (fst john_with_accounts, snd john_with_accounts) at 1.
rewrite Hthrows.
rewrite (transfer_is_all_or_nothing _ _ 1000 7 50 AccountsNotFound _ Hthrows).
reflexivity.
Defined.

(** X8: a transfer counts as a withdrawal of the day for the account it leaves,
    and does not count for the account it reaches. *)
Theorem transfer_uses_the_daily_allowance (c : Customer.t) (w : World) (X Y : Z)
    (amount v : float) (ox oy : AccountObject) :
  Customer._accounts c !! X = Some ox ->
  Customer._accounts c !! Y = Some oy ->
  X <> Y ->
  fst (Account.withdraw amount (ox, w)) = inr v ->
  exists (r : float * float) (c' : Customer.t) (w' : World) (ox' oy' : AccountObject),
    Customer.transfer X Y amount (c, w) = (inr r, (c', w'))
    /\ Customer._accounts c' !! X = Some ox'
    /\ Customer._accounts c' !! Y = Some oy'
    /\ Account._todayWithdrawn (Account.super ox')
       = (Account._todayWithdrawn (Account.super ox) + amount)%float
    /\ Account._todayWithdrawn (Account.super oy')
       = Account._todayWithdrawn (Account.super oy).
Proof.
intros HX HY Hne Hwithdraw.
destruct (withdraw_returned ox w amount v Hwithdraw) as [Hle Hcan].
rewrite (transfer_returns c w X Y amount ox oy) by assumption.
eexists _, _, _, _, _. split; [reflexivity|].
cbn [Customer._accounts Customer.set_accounts].
split; [rewrite lookup_insert_ne by congruence; apply lookup_insert_eq|].
split; [apply lookup_insert_eq|].
unfold transfer_source, transfer_destination. rewrite !super_set_super.
split; reflexivity.
Qed.

(** John moves 200 out of his savings account: 200 of its day are used. *)
Lemma transfer_uses_the_daily_allowance_witness :
  exists (r : float * float) (c' : Customer.t) (w' : World) (ox' : AccountObject),
    Customer.transfer 1001 1000 200 (fst john_with_accounts, snd john_with_accounts)
    = (inr r, (c', w'))
    /\ Customer._accounts c' !! 1001 = Some ox'
    /\ Account._todayWithdrawn (Account.super ox') = 200%float.
Proof.
destruct (transfer_uses_the_daily_allowance
            (fst john_with_accounts) (snd john_with_accounts) 1001 1000 200 800
            (fst (new_savings (snd (new_checking fresh_world 1 100)) 1 1000))
            (fst (new_checking fresh_world 1 100)))
  as (r & c' & w' & ox' & oy' & Htransfer & Hx & _ & Htoday & _).
- vm_compute; reflexivity.
- vm_compute; reflexivity.
- lia.
- vm_compute; reflexivity.
- exists r, c', w', ox'. split; [exact Htransfer|]. split; [exact Hx|].
  rewrite Htoday. vm_compute; reflexivity.
Defined.

(** * A customer at work: what every state keeps *)

(** ** The numbers of the records *)

Lemma StronglySorted_snoc (l : list Z) (x : Z) :
  StronglySorted Z.lt l -> Forall (fun y => y < x) l -> StronglySorted Z.lt (l ++ [x]).
Proof.
induction 1 as [|y l Hsorted IH Hy]; intros Hbelow.
- repeat constructor.
- simpl. inversion Hbelow as [|? ? Hyx Hl]; subst. constructor.
  + apply IH. exact Hl.
  + apply Forall_app. split; [exact Hy | repeat constructor; exact Hyx].
Qed.

Lemma numbered_snoc (w : World) (r : Transaction.t) :
  numbered w ->
  Transaction.id r = Transaction_idCounter w ->
  numbered (world_after w [r]).
Proof.
intros [Hsorted Hbelow] Hid. unfold numbered, world_after. cbn [heap Transaction_idCounter].
split.
- rewrite map_app. apply StronglySorted_snoc; [exact Hsorted|].
  apply Forall_map. cbn [map]. rewrite Hid. exact Hbelow.
- apply Forall_app. split.
  + eapply Forall_impl; [exact Hbelow|]. cbn. intros; lia.
  + repeat constructor. cbn. lia.
Qed.

Lemma numbered_recorded (w : World) (type : string) (amount : float)
    (description : Description) :
  numbered w -> numbered (world_after w [recorded w type amount description]).
Proof. intros Hw. apply numbered_snoc; [exact Hw | reflexivity]. Qed.

Lemma numbered_opened (w : World) (initialBalance : float) :
  numbered w -> numbered (world_opened w initialBalance).
Proof.
intros Hw. exact (numbered_recorded w "account_opening" initialBalance AccountOpened Hw).
Qed.

Lemma transfer_records_one_by_one (w : World) (X Y : Z) (from to : Account.t)
    (amount : float) :
  let w1 := world_after w
              [recorded w "withdrawal" amount (WithdrawalFrom (Account._accountNumber from))] in
  let w2 := world_after w1
              [recorded w1 "deposit" amount (DepositTo (Account._accountNumber to))] in
  let w3 := world_after w2 [recorded w2 "transfer_out" amount (TransferredTo Y)] in
  world_after w (transfer_records w X Y from to amount)
  = world_after w3 [recorded w3 "transfer_in" amount (ReceivedFrom X)].
Proof.
cbv zeta. rewrite !world_after_app.
unfold world_after, transfer_records, recorded, Transaction.complete,
  Transaction.set_status, Transaction.constructor.
cbn. repeat f_equal; lia.
Qed.

Lemma numbered_transferred (w : World) (X Y : Z) (from to : Account.t) (amount : float) :
  numbered w -> numbered (world_after w (transfer_records w X Y from to amount)).
Proof.
intros Hw. rewrite transfer_records_one_by_one. cbv zeta.
repeat apply numbered_recorded. exact Hw.
Qed.

Lemma later_refl (w : World) : numbered w -> later w w.
Proof.
intros Hw. split; [exists []; symmetry; apply app_nil_r|]. split; [lia | exact Hw].
Qed.

Lemma later_world_after (w : World) (records : list Transaction.t) :
  numbered (world_after w records) -> later w (world_after w records).
Proof.
intros Hw. split; [apply grows_world_after|]. split; [reflexivity | exact Hw].
Qed.

Lemma later_world_opened (w : World) (initialBalance : float) :
  numbered w -> later w (world_opened w initialBalance).
Proof.
intros Hw. split; [eexists; reflexivity|]. split; [cbn; lia | apply numbered_opened; exact Hw].
Qed.

(** ** The outcomes of a request *)

Lemma openAccount_unknown (c : Customer.t) (w : World) (accountType : string)
    (initialDeposit : option float) :
  toLowerCase accountType <> "savings" ->
  toLowerCase accountType <> "checking" ->
  Customer.openAccount accountType initialDeposit (c, w)
  = (inl (UnknownAccountTypeOf accountType), (c, w)).
Proof.
intros Hs Hc. unfold Customer.openAccount.
destruct (String.eqb_spec (toLowerCase accountType) "savings"); [contradiction|].
destruct (String.eqb_spec (toLowerCase accountType) "checking"); [contradiction|].
reflexivity.
Qed.

Lemma openAccount_known (c : Customer.t) (w : World) (accountType : string)
    (initialDeposit : option float) :
  toLowerCase accountType = "savings" \/ toLowerCase accountType = "checking" ->
  Customer.openAccount accountType initialDeposit (c, w)
  = (inr (Account_accountCounter w),
     (Customer.set_accounts
        (<[Account_accountCounter w :=
             account_of_type w (Customer._customerId c) (default 0%float initialDeposit)
               (toLowerCase accountType)]> (Customer._accounts c)) c,
      world_opened w (default 0%float initialDeposit))).
Proof.
intros Hknown. unfold Customer.openAccount, account_of_type.
unfold bind at 1, this at 1, gets at 1. cbn [fst snd].
unfold bind at 1.
destruct (String.eqb_spec (toLowerCase accountType) "savings") as [Hs|Hs].
- unfold bind at 1, global at 1, zoom at 1. cbn [fst snd].
  rewrite SavingsAccount_constructor_returns. reflexivity.
- destruct Hknown as [|Hc]; [contradiction|].
  destruct (String.eqb_spec (toLowerCase accountType) "checking") as [_|]; [|contradiction].
  unfold bind at 1, global at 1, zoom at 1. cbn [fst snd].
  rewrite CheckingAccount_constructor_returns. reflexivity.
Qed.

Lemma call_missing {A} (account : Customer.ref) (method : M (AccountObject * World) A)
    (c : Customer.t) (w : World) :
  Customer._accounts c !! account = None ->
  Customer.call account method (c, w) = (inl TypeError, (c, w)).
Proof. intros Hlookup. unfold Customer.call. rewrite Hlookup. reflexivity. Qed.

(** A request leaves the state as it was, or opens an account, or performs
    an operation on one account, or moves money between two. *)
Lemma serve_cases (r : Request) (c c' : Customer.t) (w w' : World) (res : Error + unit) :
  serve r (c, w) = (res, (c', w')) ->
  (c' = c /\ w' = w)
  \/ (exists accountType initialDeposit,
        r = OpenAccount accountType initialDeposit
        /\ c' = Customer.set_accounts
                  (<[Account_accountCounter w :=
                       account_of_type w (Customer._customerId c)
                         (default 0%float initialDeposit) (toLowerCase accountType)]>
                     (Customer._accounts c)) c
        /\ w' = world_opened w (default 0%float initialDeposit))
  \/ (exists k op o o',
        r = OnAccount k op
        /\ Customer._accounts c !! k = Some o
        /\ perform op (o, w) = (inr tt, (o', w'))
        /\ c' = Customer.set_accounts (<[k := o']> (Customer._accounts c)) c)
  \/ (exists X Y amount ox oy,
        r = Transfer X Y amount
        /\ Customer._accounts c !! X = Some ox
        /\ Customer._accounts c !! Y = Some oy
        /\ X <> Y
        /\ (amount <=? 0)%float = false
        /\ Account.this_canWithdraw ox amount = true
        /\ c' = Customer.set_accounts
                  (<[Y := transfer_destination w amount oy]>
                     (<[X := transfer_source w amount ox]> (Customer._accounts c))) c
        /\ w' = world_after w
                  (transfer_records w X Y (Account.super ox) (Account.super oy) amount)).
Proof.
destruct r as [accountType initialDeposit | X Y amount | k op]; unfold serve.
- destruct (String.eqb_spec (toLowerCase accountType) "savings") as [Hs|Hs];
    [|destruct (String.eqb_spec (toLowerCase accountType) "checking") as [Hc|Hc]].
  + unfold bind. rewrite openAccount_known by auto. unfold ret. intros [= <- <- <-].
    right. left. eauto.
  + unfold bind. rewrite openAccount_known by auto. unfold ret. intros [= <- <- <-].
    right. left. eauto.
  + unfold bind. rewrite openAccount_unknown by assumption. intros [= <- <- <-]. auto.
- destruct (transfer_cases c w X Y amount)
    as [[e He] | (ox & oy & HX & HY & Hne & Hle & Hcan & Hreturns)]; unfold bind.
  + rewrite He. intros [= <- <- <-]. auto.
  + rewrite Hreturns. unfold ret. intros [= <- <- <-].
    right. right. right. exists X, Y, amount, ox, oy. auto 10.
- destruct (Customer._accounts c !! k) as [o|] eqn:Hk.
  + rewrite (call_returns k _ c w o Hk).
    destruct (perform op (o, w)) as [[e|[]] [o' w1]] eqn:Hop; cbn [fst snd].
    * apply perform_throws in Hop. injection Hop as -> ->.
      intros [= <- <- <-].
      left. split; [|reflexivity]. apply set_accounts_same. exact Hk.
    * intros [= <- <- <-].
      right. right. left. exists k, op, o, o'. auto.
  + rewrite (call_missing k _ c w Hk). intros [= <- <- <-]. auto.
Qed.

(** ** The accounts and their records *)

Lemma total_app (value : Transaction.t -> float) (h more : list Transaction.t) :
  h <> [] ->
  total value (h ++ more) = fold_left (fun sum t => (sum + value t)%float) more (total value h).
Proof.
destruct h as [|t0 h]; [congruence|]. intros _. simpl. apply fold_left_app.
Qed.

Lemma ledger_app (h more : list Transaction.t) : ledger (h ++ more) = ledger h ++ ledger more.
Proof. apply List.filter_app. Qed.

Lemma account_kept_later (k : Z) (o : AccountObject) (w w' : World) :
  account_kept k o w ->
  grows w w' ->
  Account_accountCounter w <= Account_accountCounter w' ->
  account_kept k o w'.
Proof.
intros (Hnum & Hk & Hvalid & Hnodup & Hne & Hdone & Hbal & Hlimit & Htoday) Hgrows Hcounter.
unfold account_kept, history in *. cbv zeta in *.
rewrite (deref_grows w w') by assumption.
repeat split; try assumption; [lia|]. apply (valid_grows w); assumption.
Qed.

(** An account on which records are posted, while the store takes [records]
    at its end. *)
Lemma account_kept_posting (k : Z) (o o' : AccountObject) (w : World)
    (records posted_records : list Transaction.t) (news : list loc) :
  account_kept k o w ->
  Account._accountNumber (Account.super o') = Account._accountNumber (Account.super o) ->
  Account._dailyWithdrawalLimit (Account.super o')
  = Account._dailyWithdrawalLimit (Account.super o) ->
  Account._transactions (Account.super o')
  = Account._transactions (Account.super o) ++ news ->
  Forall (fun l => (length (heap w) <= l < length (heap w) + length records)%nat) news ->
  NoDup news ->
  deref (world_after w records) news = posted_records ->
  Forall (fun t => Transaction.status t = "completed") posted_records ->
  Account._balance (Account.super o')
  = fold_left (fun sum t => (sum + ledgerAmount t)%float) (ledger posted_records)
      (Account._balance (Account.super o)) ->
  (Account._todayWithdrawn (Account.super o') <=? 1000)%float = true ->
  account_kept k o' (world_after w records).
Proof.
intros (Hnum & Hk & Hvalid & Hnodup & Hne & Hdone & Hbal & Hlimit & Htoday)
  Hnum' Hlimit' Hrefs Hnews Hnodup' Hderef Hdone' Hbal' Htoday'.
unfold account_kept, history in *. cbv zeta in *.
assert (Hhistory : deref (world_after w records)
                     (Account._transactions (Account.super o) ++ news)
                   = deref w (Account._transactions (Account.super o)) ++ posted_records).
{ unfold deref at 1. rewrite omap_app. f_equal; [|exact Hderef].
  apply (deref_grows w (world_after w records)); [exact Hvalid | apply grows_world_after]. }
rewrite Hrefs, Hhistory, Hnum', Hlimit', ledger_app.
repeat split; try assumption.
- apply Forall_app. split.
  + apply (valid_grows w); [exact Hvalid | apply grows_world_after].
  + eapply Forall_impl; [exact Hnews|]. cbn. intros l Hl. rewrite length_app. lia.
- apply NoDup_app. split; [exact Hnodup|]. split; [|exact Hnodup'].
  intros l Hold Hnew. unfold valid in Hvalid.
  rewrite Forall_forall in Hvalid, Hnews.
  specialize (Hvalid l Hold). specialize (Hnews l Hnew). lia.
- intros Happ. apply app_eq_nil in Happ. destruct Happ; contradiction.
- apply Forall_app. split; assumption.
- rewrite total_app by exact Hne. rewrite <- Hbal. exact Hbal'.
Qed.

Lemma account_kept_opened (w : World) (customerId : Z) (deposit : float) (type : string) :
  account_kept (Account_accountCounter w) (account_of_type w customerId deposit type)
    (world_opened w deposit).
Proof.
unfold account_kept, account_of_type, history, deref, valid.
destruct (String.eqb type "savings"); cbn -[String.eqb];
  rewrite lookup_app_r by lia; rewrite Nat.sub_diag; cbn;
  (repeat split; try reflexivity; try discriminate; try lia;
   try (repeat constructor; rewrite ?length_app; cbn; lia);
   try (apply NoDup_singleton)).
Qed.

Lemma sound_later (c : Customer.t) (w w' : World) : sound c w -> later w w' -> sound c w'.
Proof.
intros (_ & Hkept & Hapart) (Hgrows & Hcounter & Hnumbered).
split; [exact Hnumbered|]. split; [|exact Hapart].
intros k o Hk. apply (account_kept_later k o w); auto.
Qed.

(** One account is replaced, or added, by an object that is in order and
    shares no record with the others. *)
Lemma sound_update (c : Customer.t) (w : World) (k : Z) (o' : AccountObject) :
  sound c w ->
  account_kept k o' w ->
  (forall k2 o2 l, k2 <> k -> Customer._accounts c !! k2 = Some o2 ->
     l ∈ Account._transactions (Account.super o') ->
     l ∈ Account._transactions (Account.super o2) -> False) ->
  sound (Customer.set_accounts (<[k := o']> (Customer._accounts c)) c) w.
Proof.
intros (Hnumbered & Hkept & Hapart) Hkept' Hapart'.
split; [exact Hnumbered|]. cbn [Customer._accounts Customer.set_accounts]. split.
- intros k1 o1. rewrite lookup_insert. case_decide as Hk1.
  + intros [= <-]. subst k1. exact Hkept'.
  + apply Hkept.
- intros k1 k2 o1 o2 l Hne. rewrite !lookup_insert.
  case_decide as Hk1; case_decide as Hk2; subst.
  + congruence.
  + intros [= <-] H2 Hl1 Hl2. exact (Hapart' k2 o2 l ltac:(congruence) H2 Hl1 Hl2).
  + intros H1 [= <-] Hl1 Hl2. exact (Hapart' k1 o1 l ltac:(congruence) H1 Hl2 Hl1).
  + apply Hapart. exact Hne.
Qed.

(** A record about to be created is in no array yet. *)
Lemma fresh_reference_apart (c : Customer.t) (w : World) (k : Z) (o : AccountObject)
    (l : loc) :
  sound c w ->
  Customer._accounts c !! k = Some o ->
  (length (heap w) <= l)%nat ->
  l ∈ Account._transactions (Account.super o) -> False.
Proof.
intros (_ & Hkept & _) Hk Hl Hin.
destruct (Hkept k o Hk) as (_ & _ & Hvalid & _).
unfold valid in Hvalid. rewrite Forall_forall in Hvalid.
specialize (Hvalid l Hin). lia.
Qed.

Lemma posted_number (balance todayWithdrawn : float) (l : loc) (o : AccountObject) :
  Account._accountNumber (Account.super (posted balance todayWithdrawn l o))
  = Account._accountNumber (Account.super o).
Proof. unfold posted. rewrite super_set_super. reflexivity. Qed.

Lemma account_kept_posted (k : Z) (o : AccountObject) (w : World)
    (balance todayWithdrawn : float) (tx : Transaction.t) :
  account_kept k o w ->
  Transaction.status tx = "completed" ->
  transfer_type (Transaction.type tx) = false ->
  balance = (Account._balance (Account.super o) + ledgerAmount tx)%float ->
  (todayWithdrawn <=? 1000)%float = true ->
  account_kept k (posted balance todayWithdrawn (length (heap w)) o) (world_after w [tx]).
Proof.
intros Hkept Hdone Htype Hbalance Htoday.
destruct (posted_fields balance todayWithdrawn (length (heap w)) o) as (Hb & Ht & Hrefs & Hl).
apply (account_kept_posting k o _ w [tx] [tx] [length (heap w)]); try assumption.
- apply posted_number.
- constructor; [cbn; lia | constructor].
- apply NoDup_singleton.
- unfold deref. csimpl. rewrite lookup_app_r by lia. rewrite Nat.sub_diag. reflexivity.
- constructor; [exact Hdone | constructor].
- rewrite Hb. unfold ledger. cbn [List.filter]. rewrite Htype. exact Hbalance.
- rewrite Ht. exact Htoday.
Qed.

Lemma account_kept_perform (k : Z) (op : Operation) (o o' : AccountObject) (w w' : World) :
  account_kept k o w ->
  perform op (o, w) = (inr tt, (o', w')) ->
  account_kept k o' w'
  /\ exists news, Account._transactions (Account.super o')
                  = Account._transactions (Account.super o) ++ news
                  /\ Forall (fun l => (length (heap w) <= l)%nat) news.
Proof.
intros Hkept Hop.
assert (Hlimit : Account._dailyWithdrawalLimit (Account.super o) = 1000%float
                 /\ (Account._todayWithdrawn (Account.super o) <=? 1000)%float = true)
  by (destruct Hkept as (_ & _ & _ & _ & _ & _ & _ & ? & ?); auto).
destruct Hlimit as [Hlimit Htoday].
assert (Hone : forall balance todayWithdrawn,
          exists news,
            Account._transactions
              (Account.super (posted balance todayWithdrawn (length (heap w)) o))
            = Account._transactions (Account.super o) ++ news
            /\ Forall (fun l => (length (heap w) <= l)%nat) news).
{ intros balance todayWithdrawn. exists [length (heap w)].
  destruct (posted_fields balance todayWithdrawn (length (heap w)) o) as (_ & _ & -> & _).
  split; [reflexivity|]. constructor; [lia | constructor]. }
apply perform_cases in Hop. cbn zeta in Hop.
destruct op as [amount|amount|months|].
- destruct Hop as (_ & -> & ->). split; [|apply Hone].
  apply account_kept_posted; try assumption; reflexivity.
- destruct Hop as (_ & Hcan & -> & ->). split; [|apply Hone].
  apply account_kept_posted; try assumption; try reflexivity.
  + unfold ledgerAmount. simpl. apply float_sub_add_opp.
  + apply canWithdraw_within_limit in Hcan. rewrite Hlimit in Hcan. exact Hcan.
- destruct Hop as (s & -> & -> & ->). split; [|apply Hone].
  apply account_kept_posted; try assumption; reflexivity.
- destruct Hop as (c & -> & [(_ & -> & ->) | (_ & -> & ->)]).
  + split; [|apply Hone].
    apply account_kept_posted; try assumption; try reflexivity.
    unfold ledgerAmount. simpl. apply float_sub_add_opp.
  + split; [exact Hkept|]. exists []. rewrite app_nil_r. split; [reflexivity | constructor].
Qed.

Lemma transfer_source_fields (w : World) (amount : float) (o : AccountObject) :
  let a := Account.super o in
  let a' := Account.super (transfer_source w amount o) in
  Account._accountNumber a' = Account._accountNumber a
  /\ Account._dailyWithdrawalLimit a' = Account._dailyWithdrawalLimit a
  /\ Account._transactions a'
     = Account._transactions a ++ [length (heap w); S (S (length (heap w)))]
  /\ Account._balance a' = (Account._balance a - amount)%float
  /\ Account._todayWithdrawn a' = (Account._todayWithdrawn a + amount)%float.
Proof. cbv zeta. unfold transfer_source. rewrite super_set_super. simpl. auto 6. Qed.

Lemma transfer_destination_fields (w : World) (amount : float) (o : AccountObject) :
  let a := Account.super o in
  let a' := Account.super (transfer_destination w amount o) in
  Account._accountNumber a' = Account._accountNumber a
  /\ Account._dailyWithdrawalLimit a' = Account._dailyWithdrawalLimit a
  /\ Account._transactions a'
     = Account._transactions a ++ [S (length (heap w)); S (S (S (length (heap w))))]
  /\ Account._balance a' = (Account._balance a + amount)%float
  /\ Account._todayWithdrawn a' = Account._todayWithdrawn a.
Proof. cbv zeta. unfold transfer_destination. rewrite super_set_super. simpl. auto 6. Qed.

Lemma account_kept_transfer_source (k X Y : Z) (o : AccountObject) (from to : Account.t)
    (w : World) (amount : float) :
  account_kept k o w ->
  Account.this_canWithdraw o amount = true ->
  account_kept k (transfer_source w amount o)
    (world_after w (transfer_records w X Y from to amount)).
Proof.
intros Hkept Hcan.
assert (Hlimit : Account._dailyWithdrawalLimit (Account.super o) = 1000%float)
  by (destruct Hkept as (_ & _ & _ & _ & _ & _ & _ & ? & ?); auto).
destruct (transfer_source_fields w amount o) as (Hn & Hl & Hrefs & Hb & Ht).
eapply (account_kept_posting k o _ w (transfer_records w X Y from to amount) _
          [length (heap w); S (S (length (heap w)))]); try eassumption.
- repeat constructor; cbn; lia.
- apply NoDup_ListNoDup. constructor; [cbn; lia | constructor; [intros [] | constructor]].
- unfold deref. csimpl.
  rewrite !lookup_app_r by lia. rewrite Nat.sub_diag.
  replace (S (S (length (heap w))) - length (heap w))%nat with 2%nat by lia.
  reflexivity.
- repeat constructor.
- rewrite Hb. cbn. apply float_sub_add_opp.
- rewrite Ht. apply canWithdraw_within_limit in Hcan. rewrite Hlimit in Hcan. exact Hcan.
Qed.

Lemma account_kept_transfer_destination (k X Y : Z) (o : AccountObject) (from to : Account.t)
    (w : World) (amount : float) :
  account_kept k o w ->
  account_kept k (transfer_destination w amount o)
    (world_after w (transfer_records w X Y from to amount)).
Proof.
intros Hkept.
assert (Htoday : (Account._todayWithdrawn (Account.super o) <=? 1000)%float = true)
  by (destruct Hkept as (_ & _ & _ & _ & _ & _ & _ & ? & ?); auto).
destruct (transfer_destination_fields w amount o) as (Hn & Hl & Hrefs & Hb & Ht).
eapply (account_kept_posting k o _ w (transfer_records w X Y from to amount) _
          [S (length (heap w)); S (S (S (length (heap w))))]); try eassumption.
- repeat constructor; cbn; lia.
- apply NoDup_ListNoDup. constructor; [cbn; lia | constructor; [intros [] | constructor]].
- unfold deref. csimpl.
  rewrite !lookup_app_r by lia.
  replace (S (length (heap w)) - length (heap w))%nat with 1%nat by lia.
  replace (S (S (S (length (heap w)))) - length (heap w))%nat with 3%nat by lia.
  reflexivity.
- repeat constructor.
- rewrite Hb. reflexivity.
- rewrite Ht. exact Htoday.
Qed.

Lemma perform_later (op : Operation) (o o' : AccountObject) (w w' : World) :
  numbered w -> perform op (o, w) = (inr tt, (o', w')) -> later w w'.
Proof.
intros Hw Hop. apply perform_cases in Hop. cbn zeta in Hop.
destruct op as [amount|amount|months|].
- destruct Hop as (_ & _ & ->). apply later_world_after, numbered_recorded, Hw.
- destruct Hop as (_ & _ & _ & ->). apply later_world_after, numbered_recorded, Hw.
- destruct Hop as (s & _ & _ & ->). apply later_world_after, numbered_recorded, Hw.
- destruct Hop as (c & _ & [(_ & _ & ->) | (_ & _ & ->)]).
  + apply later_world_after, numbered_recorded, Hw.
  + apply later_refl, Hw.
Qed.

Lemma account_of_type_transactions (w : World) (customerId : Z) (deposit : float)
    (type : string) :
  Account._transactions (Account.super (account_of_type w customerId deposit type))
  = [length (heap w)].
Proof. unfold account_of_type. destruct (String.eqb type "savings"); reflexivity. Qed.

(** ** Every request keeps the customer's accounts in order *)

Lemma sound_serve (r : Request) (c c' : Customer.t) (w w' : World) (res : Error + unit) :
  sound c w -> serve r (c, w) = (res, (c', w')) -> sound c' w'.
Proof.
intros Hsound Hserve. pose proof Hsound as (Hnumbered & Hkept & Hapart).
apply serve_cases in Hserve
  as [[-> ->]
     |[(accountType & initialDeposit & _ & -> & ->)
      |[(k & op & o & o' & _ & Hk & Hop & ->)
       |(X & Y & amount & ox & oy & _ & HX & HY & Hne & _ & Hcan & -> & ->)]]].
- exact Hsound.
- apply sound_update.
  + apply (sound_later c w); [exact Hsound | apply later_world_opened, Hnumbered].
  + apply account_kept_opened.
  + intros k2 o2 l _ Hk2. rewrite account_of_type_transactions.
    intros Hl%list_elem_of_singleton. subst l.
    apply (fresh_reference_apart c w k2 o2 (length (heap w))); auto.
- destruct (account_kept_perform k op o o' w w' (Hkept k o Hk) Hop)
    as (Hkept' & news & Hrefs & Hnews).
  apply sound_update.
  + apply (sound_later c w); [exact Hsound | exact (perform_later op o o' w w' Hnumbered Hop)].
  + exact Hkept'.
  + intros k2 o2 l Hk2 Ho2. rewrite Hrefs. intros [Hold|Hnew]%elem_of_app.
    * apply (Hapart k k2 o o2 l); auto.
    * rewrite Forall_forall in Hnews.
      apply (fresh_reference_apart c w k2 o2 l); auto.
- set (records := transfer_records w X Y (Account.super ox) (Account.super oy) amount).
  assert (Hlater : later w (world_after w records))
    by (apply later_world_after, numbered_transferred, Hnumbered).
  destruct (transfer_source_fields w amount ox) as (_ & _ & Hrefsx & _).
  destruct (transfer_destination_fields w amount oy) as (_ & _ & Hrefsy & _).
  set (c1 := Customer.set_accounts
               (<[X := transfer_source w amount ox]> (Customer._accounts c)) c).
  replace (Customer.set_accounts
             (<[Y := transfer_destination w amount oy]>
                (<[X := transfer_source w amount ox]> (Customer._accounts c))) c)
    with (Customer.set_accounts
            (<[Y := transfer_destination w amount oy]> (Customer._accounts c1)) c1)
    by (destruct c; reflexivity).
  subst c1. apply sound_update.
  + apply sound_update.
    * apply (sound_later c w); assumption.
    * apply account_kept_transfer_source; auto.
    * intros k2 o2 l Hk2 Ho2. rewrite Hrefsx. intros [Hold|Hnew]%elem_of_app.
      -- apply (Hapart X k2 ox o2 l); auto.
      -- apply (fresh_reference_apart c w k2 o2 l); auto.
         apply list_elem_of_In in Hnew. cbn in Hnew. lia.
  + apply account_kept_transfer_destination; auto.
  + intros k2 o2 l Hk2. cbn [Customer._accounts Customer.set_accounts].
    rewrite lookup_insert. rewrite Hrefsy. case_decide as HkX.
    * intros [= <-]. rewrite Hrefsx.
      intros [Hy|Hy]%elem_of_app [Hx|Hx]%elem_of_app.
      -- apply (Hapart X Y ox oy l); auto.
      -- apply (fresh_reference_apart c w Y oy l); auto.
         apply list_elem_of_In in Hx. cbn in Hx. lia.
      -- apply (fresh_reference_apart c w X ox l); auto.
         apply list_elem_of_In in Hy. cbn in Hy. lia.
      -- apply list_elem_of_In in Hx, Hy. cbn in Hx, Hy. lia.
    * intros Ho2 [Hy|Hy]%elem_of_app.
      -- apply (Hapart Y k2 oy o2 l); auto.
      -- apply (fresh_reference_apart c w k2 o2 l); auto.
         apply list_elem_of_In in Hy. cbn in Hy. lia.
Qed.

Lemma served_sound (c : Customer.t) (w : World) : served c w -> sound c w.
Proof.
induction 1 as [c w Hempty Hw | c w r res c' w' _ IH Hserve | c w w' _ IH Hlater].
- split; [exact Hw|]. rewrite Hempty. split.
  + intros k o Hk. rewrite lookup_empty in Hk. discriminate.
  + intros k1 k2 o1 o2 l _ Hk. rewrite lookup_empty in Hk. discriminate.
- exact (sound_serve r c c' w w' res IH Hserve).
- exact (sound_later c w w' IH Hlater).
Qed.

(** ** What a caller can rely on *)

Lemma served_attend (requests : list Request) (s : Customer.t * World) :
  served (fst s) (snd s) -> served (fst (attend requests s)) (snd (attend requests s)).
Proof.
unfold attend. revert s. induction requests as [|r requests IH]; intros [c w] Hs; [exact Hs|].
cbn [fold_left]. apply IH.
destruct (serve r (c, w)) as [res [c' w']] eqn:Hserve. cbn [fst snd] in *.
exact (served_request c w r res c' w' Hs Hserve).
Qed.

Lemma served_john_at_work : served (fst john_at_work) (snd john_at_work).
Proof.
apply served_attend, served_new; [reflexivity|]. split; constructor.
Qed.

Lemma serve_later (r : Request) (c c' : Customer.t) (w w' : World) (res : Error + unit) :
  numbered w -> serve r (c, w) = (res, (c', w')) -> later w w'.
Proof.
intros Hw Hserve.
apply serve_cases in Hserve
  as [[-> ->]
     |[(accountType & initialDeposit & _ & _ & ->)
      |[(k & op & o & o' & _ & _ & Hop & _)
       |(X & Y & amount & ox & oy & _ & _ & _ & _ & _ & _ & _ & ->)]]].
- apply later_refl, Hw.
- apply later_world_opened, Hw.
- exact (perform_later op o o' w w' Hw Hop).
- apply later_world_after, numbered_transferred, Hw.
Qed.

Lemma lookup_map {A B} (f : A -> B) (l : list A) (i : nat) :
  map f l !! i = f <$> l !! i.
Proof. revert i. induction l as [|x l IH]; intros [|i]; try reflexivity. apply IH. Qed.

Lemma StronglySorted_lt_NoDup (l : list Z) : StronglySorted Z.lt l -> NoDup l.
Proof.
induction 1 as [|x l _ IH Hx]; constructor; [|exact IH].
intros Hin. rewrite Forall_forall in Hx. specialize (Hx x Hin). lia.
Qed.

Lemma numbered_apart (w : World) (i j : nat) (t1 t2 : Transaction.t) :
  numbered w ->
  heap w !! i = Some t1 -> heap w !! j = Some t2 ->
  Transaction.id t1 = Transaction.id t2 -> i = j.
Proof.
intros [Hsorted _] Hi Hj Hid. apply StronglySorted_lt_NoDup in Hsorted.
apply (NoDup_lookup _ i j (Transaction.id t1) Hsorted).
- rewrite lookup_map, Hi. reflexivity.
- rewrite lookup_map, Hj, Hid. reflexivity.
Qed.

(** X9: whatever a request does, and whether it returns or throws, it leaves the
    records of the store as they are and numbers the records it adds after
    them: the identifiers stay increasing in the order of creation, below the
    next value of [Transaction.idCounter], and no two records share one. *)
Theorem requests_number_their_records (r : Request) (c c' : Customer.t) (w w' : World)
    (res : Error + unit) :
  numbered w ->
  serve r (c, w) = (res, (c', w')) ->
  (exists more, heap w' = heap w ++ more)
  /\ StronglySorted Z.lt (map Transaction.id (heap w'))
  /\ Forall (fun t => Transaction.id t < Transaction_idCounter w') (heap w')
  /\ NoDup (map Transaction.id (heap w')).
Proof.
intros Hw Hserve.
destruct (serve_later r c c' w w' res Hw Hserve) as (Hgrows & _ & Hsorted & Hbelow).
split; [exact Hgrows|]. split; [exact Hsorted|]. split; [exact Hbelow|].
apply StronglySorted_lt_NoDup, Hsorted.
Qed.

(** The transfer of 200 between John's two accounts, opened in a new world,
    leaves six records, numbered 1 to 6. *)
Lemma requests_number_their_records_witness :
  map Transaction.id
    (heap (snd (snd (serve (Transfer 1001 1000 200) john_with_accounts))))
  = [1; 2; 3; 4; 5; 6]
  /\ NoDup (map Transaction.id
              (heap (snd (snd (serve (Transfer 1001 1000 200) john_with_accounts))))).
Proof.
split; [vm_compute; reflexivity|].
refine (proj2 (proj2 (proj2
  (requests_number_their_records (Transfer 1001 1000 200)
     (fst john_with_accounts)
     (fst (snd (serve (Transfer 1001 1000 200) john_with_accounts)))
     (snd john_with_accounts)
     (snd (snd (serve (Transfer 1001 1000 200) john_with_accounts)))
     (fst (serve (Transfer 1001 1000 200) john_with_accounts)) _ _)))).
- split; vm_compute; repeat constructor.
- vm_compute; reflexivity.
Defined.

(** X10: the balance of every account of a customer is the total of its ledger,
    transfers included: a transfer books a withdrawal on one account and a
    deposit on the other, and the two records [transfer_out] and
    [transfer_in] it adds tell the same movement a second time, so they are
    left out of the total. Every record of the history is completed. *)
Theorem accounts_balance_their_ledgers (c : Customer.t) (w : World) (k : Z)
    (o : AccountObject) :
  served c w ->
  Customer._accounts c !! k = Some o ->
  Forall (fun t => Transaction.status t = "completed") (history w o)
  /\ Account._balance (Account.super o) = total ledgerAmount (ledger (history w o)).
Proof.
intros Hserved Hk. apply served_sound in Hserved as (_ & Hkept & _).
destruct (Hkept k o Hk) as (_ & _ & _ & _ & _ & Hdone & Hbalance & _). auto.
Qed.

(** John's checking account at the end of his day: opened with 100, 200
    received, 50 withdrawn. *)
Lemma accounts_balance_their_ledgers_witness :
  exists o : AccountObject,
    Customer._accounts (fst john_at_work) !! 1000 = Some o
    /\ map summary (history (snd john_at_work) o)
       = [ ("account_opening", 100%float, "completed");
           ("deposit", 200%float, "completed");
           ("transfer_in", 200%float, "completed");
           ("withdrawal", 50%float, "completed") ]
    /\ Account._balance (Account.super o) = 250%float
    /\ Account._balance (Account.super o)
       = total ledgerAmount (ledger (history (snd john_at_work) o)).
Proof.
destruct (Customer._accounts (fst john_at_work) !! 1000) as [o|] eqn:Ho;
  [|vm_compute in Ho; discriminate].
exists o. split; [reflexivity|].
pose proof (accounts_balance_their_ledgers (fst john_at_work) (snd john_at_work) 1000 o
              served_john_at_work Ho) as [_ Hbalance].
split; [|split; [|exact Hbalance]].
- vm_compute in Ho. injection Ho as <-. vm_compute; reflexivity.
- vm_compute in Ho. injection Ho as <-. vm_compute; reflexivity.
Defined.

(** X11: every account of a customer keeps the daily limit of 1000 the constructor
    gave it, and the amount withdrawn today stays within it, withdrawals made
    by transfers included. *)
Theorem accounts_stay_within_the_daily_limit (c : Customer.t) (w : World) (k : Z)
    (o : AccountObject) :
  served c w ->
  Customer._accounts c !! k = Some o ->
  Account._dailyWithdrawalLimit (Account.super o) = 1000%float
  /\ (Account._todayWithdrawn (Account.super o) <=? 1000)%float = true.
Proof.
intros Hserved Hk. apply served_sound in Hserved as (_ & Hkept & _).
destruct (Hkept k o Hk) as (_ & _ & _ & _ & _ & _ & _ & Hlimit & Htoday). auto.
Qed.

(** John's savings account has withdrawn 200 today, by the transfer. *)
Lemma accounts_stay_within_the_daily_limit_witness :
  exists o : AccountObject,
    Customer._accounts (fst john_at_work) !! 1001 = Some o
    /\ Account._todayWithdrawn (Account.super o) = 200%float
    /\ (Account._todayWithdrawn (Account.super o) <=? 1000)%float = true.
Proof.
destruct (Customer._accounts (fst john_at_work) !! 1001) as [o|] eqn:Ho;
  [|vm_compute in Ho; discriminate].
exists o. split; [reflexivity|].
pose proof (accounts_stay_within_the_daily_limit (fst john_at_work) (snd john_at_work)
              1001 o served_john_at_work Ho) as [_ Htoday].
split; [|exact Htoday].
vm_compute in Ho. injection Ho as <-. vm_compute; reflexivity.
Defined.

Lemma history_elem (w : World) (o : AccountObject) (t : Transaction.t) :
  t ∈ history w o <->
  exists l, l ∈ Account._transactions (Account.super o) /\ heap w !! l = Some t.
Proof. unfold history, deref. apply list_elem_of_omap. Qed.

Lemma deref_ids_NoDup (w : World) (refs : list loc) :
  numbered w -> NoDup refs -> NoDup (map Transaction.id (deref w refs)).
Proof.
intros Hw. induction 1 as [|l refs Hl Hrefs IH]; [constructor|].
unfold deref in *. csimpl. destruct (heap w !! l) as [t|] eqn:Ht; [|exact IH].
cbn [map]. constructor; [|exact IH].
intros Hin. apply list_elem_of_In, in_map_iff in Hin as (t2 & Hid & Hin).
apply list_elem_of_In, list_elem_of_omap in Hin as (l2 & Hl2 & Ht2).
rewrite (numbered_apart w l l2 t t2 Hw Ht Ht2 (eq_sym Hid)) in Hl. contradiction.
Qed.

Lemma deref_length (w : World) (refs : list loc) :
  valid w refs -> length (deref w refs) = length refs.
Proof.
unfold deref. induction 1 as [|l refs Hl _ IH]; [reflexivity|].
csimpl. unfold loc in *. apply lookup_lt_is_Some_2 in Hl as [t ->].
cbn [length]. rewrite IH. reflexivity.
Qed.

(** X12: the histories of a customer's accounts keep their records apart: every
    record of a history is in the store, no identifier occurs twice in one
    history, and none occurs in the histories of two accounts. Each account is
    kept under its own number. *)
Theorem accounts_share_no_record (c : Customer.t) (w : World) (k1 k2 : Z)
    (o1 o2 : AccountObject) :
  served c w ->
  Customer._accounts c !! k1 = Some o1 ->
  Customer._accounts c !! k2 = Some o2 ->
  Account._accountNumber (Account.super o1) = k1
  /\ length (history w o1) = length (Account._transactions (Account.super o1))
  /\ NoDup (map Transaction.id (history w o1))
  /\ (k1 <> k2 ->
      forall t1 t2, t1 ∈ history w o1 -> t2 ∈ history w o2 ->
        Transaction.id t1 <> Transaction.id t2).
Proof.
intros Hserved Hk1 Hk2. apply served_sound in Hserved as (Hw & Hkept & Hapart).
destruct (Hkept k1 o1 Hk1) as (Hnumber & _ & Hvalid & Hnodup & _).
split; [exact Hnumber|]. split; [|split].
- apply deref_length, Hvalid.
- apply deref_ids_NoDup; assumption.
- intros Hne t1 t2 (l1 & Hl1 & Ht1)%history_elem (l2 & Hl2 & Ht2)%history_elem Hid.
  rewrite (numbered_apart w l1 l2 t1 t2 Hw Ht1 Ht2 Hid) in Hl1.
  exact (Hapart k1 k2 o1 o2 l2 Hne Hk1 Hk2 Hl1 Hl2).
Qed.

(** John's two accounts at the end of his day: the checking account holds the
    records 1, 4, 6 and 7, the savings account 2, 3 and 5. *)
Lemma accounts_share_no_record_witness :
  exists o1 o2 : AccountObject,
    Customer._accounts (fst john_at_work) !! 1000 = Some o1
    /\ Customer._accounts (fst john_at_work) !! 1001 = Some o2
    /\ map Transaction.id (history (snd john_at_work) o1) = [1; 4; 6; 7]
    /\ map Transaction.id (history (snd john_at_work) o2) = [2; 3; 5]
    /\ forall t1 t2, t1 ∈ history (snd john_at_work) o1 ->
         t2 ∈ history (snd john_at_work) o2 -> Transaction.id t1 <> Transaction.id t2.
Proof.
destruct (Customer._accounts (fst john_at_work) !! 1000) as [o1|] eqn:Ho1;
  [|vm_compute in Ho1; discriminate].
destruct (Customer._accounts (fst john_at_work) !! 1001) as [o2|] eqn:Ho2;
  [|vm_compute in Ho2; discriminate].
exists o1, o2. split; [reflexivity|]. split; [reflexivity|].
pose proof (accounts_share_no_record (fst john_at_work) (snd john_at_work) 1000 1001 o1 o2
              served_john_at_work Ho1 Ho2) as (_ & _ & _ & Hapart).
split; [|split; [|apply Hapart; lia]].
- vm_compute in Ho1. injection Ho1 as <-. vm_compute; reflexivity.
- vm_compute in Ho2. injection Ho2 as <-. vm_compute; reflexivity.
Defined.

(** X13: [openAccount], when it returns, has added one account and touched no
    other: the number it returns was not in use, the customer now holds under
    it an account of that number, with the initial deposit as balance and the
    record of the opening as history, every other number gives what it gave
    before, and [accountCount] is one more. *)
Theorem openAccount_adds_one_account (c c' : Customer.t) (w w' : World)
    (accountType : string) (initialDeposit : option float) (k : Z) :
  served c w ->
  Customer.openAccount accountType initialDeposit (c, w) = (inr k, (c', w')) ->
  Customer._accounts c !! k = None
  /\ (exists o, Customer._accounts c' !! k = Some o
        /\ Account._accountNumber (Account.super o) = k
        /\ Account._accountType (Account.super o) = toLowerCase accountType
        /\ Account._balance (Account.super o) = default 0%float initialDeposit
        /\ map summary (history w' o)
           = [("account_opening", default 0%float initialDeposit, "completed")])
  /\ (forall k2, k2 <> k -> Customer._accounts c' !! k2 = Customer._accounts c !! k2)
  /\ fst (Customer_accountCount (c', w')) = inr (S (size (Customer._accounts c))).
Proof.
intros Hserved Hopen. apply served_sound in Hserved as (_ & Hkept & _).
assert (Hknown : toLowerCase accountType = "savings" \/ toLowerCase accountType = "checking").
{ destruct (String.eqb_spec (toLowerCase accountType) "savings") as [|Hs]; [auto|].
  destruct (String.eqb_spec (toLowerCase accountType) "checking") as [|Hc]; [auto|].
  rewrite openAccount_unknown in Hopen by assumption. discriminate. }
rewrite openAccount_known in Hopen by exact Hknown. injection Hopen as <- <- <-.
assert (Hnew : Customer._accounts c !! Account_accountCounter w = None).
{ destruct (Customer._accounts c !! Account_accountCounter w) as [o|] eqn:Ho; [|reflexivity].
  destruct (Hkept _ o Ho) as (_ & Hbelow & _). lia. }
split; [exact Hnew|]. cbn [Customer._accounts Customer.set_accounts]. split; [|split].
- eexists. split; [apply lookup_insert_eq|].
  unfold account_of_type, history, deref.
  destruct Hknown as [-> | ->]; cbn -[toLowerCase];
    rewrite lookup_app_r by lia; rewrite Nat.sub_diag; repeat split; reflexivity.
- intros k2 Hk2. apply lookup_insert_ne. congruence.
- unfold Customer_accountCount, bind, this, gets, ret.
  cbn [fst snd Customer._accounts Customer.set_accounts].
  rewrite map_size_insert_None by exact Hnew. reflexivity.
Qed.

(** At the end of his day John opens a third account: it gets the number
    1002. *)
Lemma openAccount_adds_one_account_witness :
  fst (Customer.openAccount "CHECKING" None john_at_work) = inr 1002
  /\ Customer._accounts (fst john_at_work) !! 1002 = None
  /\ fst (Customer_accountCount
            (fst (snd (Customer.openAccount "CHECKING" None john_at_work)),
             snd (snd (Customer.openAccount "CHECKING" None john_at_work))))
     = inr 3%nat.
Proof.
split; [vm_compute; reflexivity|].
destruct (openAccount_adds_one_account (fst john_at_work)
            (fst (snd (Customer.openAccount "CHECKING" None john_at_work)))
            (snd john_at_work)
            (snd (snd (Customer.openAccount "CHECKING" None john_at_work)))
            "CHECKING" None 1002 served_john_at_work)
  as (Hnew & _ & _ & Hcount).
- vm_compute; reflexivity.
- split; [exact Hnew|].
  etransitivity; [exact Hcount | vm_compute; reflexivity].
Defined.

(** * Passwords *)

Lemma base64_index (n : N) : (n < 64)%N -> index_of (base64 n) base64_alphabet = n.
Proof.
intros Hn.
assert (Hall : forallb (fun i => N.eqb (index_of (base64 (N.of_nat i)) base64_alphabet)
                                   (N.of_nat i))
                 (seq 0 64) = true) by (vm_compute; reflexivity).
rewrite forallb_forall in Hall. specialize (Hall (N.to_nat n)).
rewrite N2Nat.id in Hall. apply N.eqb_eq, Hall, in_seq. lia.
Qed.

Lemma base64_inj (n m : N) : (n < 64)%N -> (m < 64)%N -> base64 n = base64 m -> n = m.
Proof.
intros Hn Hm Heq. rewrite <- (base64_index n Hn), <- (base64_index m Hm), Heq. reflexivity.
Qed.

Lemma base64_not_pad (n : N) : (n < 64)%N -> base64 n <> "="%char.
Proof.
intros Hn Heq. pose proof (base64_index n Hn) as Hi. rewrite Heq in Hi.
vm_compute in Hi. lia.
Qed.

Lemma code_inj (a b : ascii) : N_of_ascii a = N_of_ascii b -> a = b.
Proof.
intros H. rewrite <- (ascii_N_embedding a), <- (ascii_N_embedding b), H. reflexivity.
Qed.

Lemma split_byte (x d : N) : (d <> 0 -> x = d * (x / d) + x mod d /\ x mod d < d)%N.
Proof. intros Hd. split; [apply N.div_mod; exact Hd | apply N.mod_lt; exact Hd]. Qed.

(** Arithmetic of the digits of a character: the quotients and remainders by
    4, 16 and 64 are named, and the rest is linear. *)
Ltac bytes :=
  repeat match goal with
  | H : (?x < 256)%N |- _ =>
      pose proof (split_byte x 4 ltac:(discriminate));
      pose proof (split_byte x 16 ltac:(discriminate));
      pose proof (split_byte x 64 ltac:(discriminate));
      revert H
  end; intros;
  repeat match goal with
  | H : context [(?x / ?d)%N] |- _ => generalize dependent (x / d)%N; intros
  | H : context [(?x mod ?d)%N] |- _ => generalize dependent (x mod d)%N; intros
  | |- context [(?x / ?d)%N] => generalize dependent (x / d)%N; intros
  | |- context [(?x mod ?d)%N] => generalize dependent (x mod d)%N; intros
  end;
  lia.

Lemma sextets_below (a b c : N) :
  (a < 256 -> b < 256 -> c < 256 ->
   a / 4 < 64 /\ a mod 4 * 16 < 64 /\ a mod 4 * 16 + b / 16 < 64
   /\ b mod 16 * 4 < 64 /\ b mod 16 * 4 + c / 64 < 64 /\ c mod 64 < 64)%N.
Proof. intros. bytes. Qed.

Lemma sextets_one (a a' : N) :
  (a < 256 -> a' < 256 -> a / 4 = a' / 4 -> a mod 4 * 16 = a' mod 4 * 16 -> a = a')%N.
Proof. intros. bytes. Qed.

Lemma sextets_two (a b a' b' : N) :
  (a < 256 -> b < 256 -> a' < 256 -> b' < 256 ->
   a / 4 = a' / 4 -> a mod 4 * 16 + b / 16 = a' mod 4 * 16 + b' / 16 ->
   b mod 16 * 4 = b' mod 16 * 4 -> a = a' /\ b = b')%N.
Proof. intros. bytes. Qed.

Lemma sextets_three (a b c a' b' c' : N) :
  (a < 256 -> b < 256 -> c < 256 -> a' < 256 -> b' < 256 -> c' < 256 ->
   a / 4 = a' / 4 -> a mod 4 * 16 + b / 16 = a' mod 4 * 16 + b' / 16 ->
   b mod 16 * 4 + c / 64 = b' mod 16 * 4 + c' / 64 -> c mod 64 = c' mod 64 ->
   a = a' /\ b = b' /\ c = c')%N.
Proof. intros. bytes. Qed.

Lemma btoa_inj_bounded (n : nat) (s1 s2 : string) :
  (String.length s1 <= n)%nat -> btoa s1 = btoa s2 -> s1 = s2.
Proof.
revert s1 s2. induction n as [|n IH]; intros s1 s2 Hlen Heq.
- destruct s1; [|cbn in Hlen; lia].
  destruct s2 as [|a [|b [|c s2]]]; [reflexivity|discriminate..].
- destruct s1 as [|a1 [|b1 [|c1 s1]]]; destruct s2 as [|a2 [|b2 [|c2 s2]]];
    try reflexivity; try discriminate;
    cbn [btoa] in Heq; cbv zeta in Heq.
  all: pose proof (N_ascii_bounded a1) as Ha1; pose proof (N_ascii_bounded a2) as Ha2.
  all: try pose proof (N_ascii_bounded b1) as Hb1; try pose proof (N_ascii_bounded b2) as Hb2.
  all: try pose proof (N_ascii_bounded c1) as Hc1; try pose proof (N_ascii_bounded c2) as Hc2.
  + destruct (sextets_below _ _ _ Ha1 Ha1 Ha1) as (B1 & B2 & _).
    destruct (sextets_below _ _ _ Ha2 Ha2 Ha2) as (B3 & B4 & _).
    injection Heq as H1 H2. apply base64_inj in H1, H2; try assumption.
    f_equal. apply code_inj. apply sextets_one; assumption.
  + destruct (sextets_below _ _ _ Ha2 Hb2 Hb2) as (_ & _ & _ & B5 & _).
    injection Heq as _ _ H3. symmetry in H3.
    apply base64_not_pad in H3; [contradiction|assumption].
  + destruct (sextets_below _ _ _ Ha2 Hb2 Hc2) as (_ & _ & _ & _ & B6 & _).
    injection Heq as _ _ H3 _. symmetry in H3.
    apply base64_not_pad in H3; [contradiction|assumption].
  + destruct (sextets_below _ _ _ Ha1 Hb1 Hb1) as (_ & _ & _ & B7 & _).
    injection Heq as _ _ H3. apply base64_not_pad in H3; [contradiction|assumption].
  + destruct (sextets_below _ _ _ Ha1 Hb1 Hb1) as (B8 & _ & B9 & B10 & _).
    destruct (sextets_below _ _ _ Ha2 Hb2 Hb2) as (B11 & _ & B12 & B13 & _).
    injection Heq as H1 H2 H3. apply base64_inj in H1, H2, H3; try assumption.
    destruct (sextets_two _ _ _ _ Ha1 Hb1 Ha2 Hb2 H1 H2 H3) as [Ha Hb].
    apply code_inj in Ha, Hb. subst. reflexivity.
  + destruct (sextets_below _ _ _ Ha2 Hb2 Hc2) as (_ & _ & _ & _ & _ & B14).
    injection Heq as _ _ _ H4 _. symmetry in H4.
    apply base64_not_pad in H4; [contradiction|assumption].
  + destruct (sextets_below _ _ _ Ha1 Hb1 Hc1) as (_ & _ & _ & _ & B15 & _).
    injection Heq as _ _ H3 _. apply base64_not_pad in H3; [contradiction|assumption].
  + destruct (sextets_below _ _ _ Ha1 Hb1 Hc1) as (_ & _ & _ & _ & _ & B16).
    injection Heq as _ _ _ H4 _. apply base64_not_pad in H4; [contradiction|assumption].
  + destruct (sextets_below _ _ _ Ha1 Hb1 Hc1) as (B17 & _ & B18 & _ & B19 & B20).
    destruct (sextets_below _ _ _ Ha2 Hb2 Hc2) as (B21 & _ & B22 & _ & B23 & B24).
    injection Heq as H1 H2 H3 H4 Hrest. apply base64_inj in H1, H2, H3, H4; try assumption.
    destruct (sextets_three _ _ _ _ _ _ Ha1 Hb1 Hc1 Ha2 Hb2 Hc2 H1 H2 H3 H4)
      as (Ha & Hb & Hc).
    apply code_inj in Ha, Hb, Hc. apply IH in Hrest; [|cbn in Hlen; lia].
    subst. reflexivity.
Qed.

Lemma btoa_inj (s1 s2 : string) : btoa s1 = btoa s2 -> s1 = s2.
Proof. apply (btoa_inj_bounded (String.length s1)). lia. Qed.

Lemma String_length_append (s1 s2 : string) :
  String.length (s1 ++ s2)%string = (String.length s1 + String.length s2)%nat.
Proof.
induction s1 as [|a s1 IH]; [reflexivity|].
change (S (String.length (s1 ++ s2)%string) = S (String.length s1 + String.length s2)).
f_equal. exact IH.
Qed.

Lemma append_inj_l (s1 s2 suffix : string) :
  (s1 ++ suffix)%string = (s2 ++ suffix)%string -> s1 = s2.
Proof.
intros Heq.
assert (Hlen : String.length s1 = String.length s2).
{ apply (f_equal String.length) in Heq. rewrite !String_length_append in Heq. lia. }
revert s2 Heq Hlen. induction s1 as [|a s1 IH]; intros [|b s2] Heq Hlen;
  try discriminate; [reflexivity|].
cbn in Heq, Hlen. injection Heq as -> Heq. f_equal. apply IH; [exact Heq | lia].
Qed.

Lemma hashPassword_inj (p1 p2 : string) :
  Customer_hashPassword p1 = Customer_hashPassword p2 -> p1 = p2.
Proof. intros Heq. apply btoa_inj in Heq. exact (append_inj_l p1 p2 "salt" Heq). Qed.

Lemma verifyPassword_hashed (p p' : string) (c : Customer.t) :
  Customer._password c = Customer_hashPassword p ->
  Customer_verifyPassword p' c = true <-> p' = p.
Proof.
intros Hc. unfold Customer_verifyPassword. rewrite Hc, String.eqb_eq. split.
- apply hashPassword_inj.
- intros ->. reflexivity.
Qed.

(** The value [new Customer("John", "Doe", "john@example.com", "secret123")]
    stores for the password, and the customer it builds. *)
Example hashPassword_secret123 : Customer_hashPassword "secret123" = "c2VjcmV0MTIzc2FsdA==".
Proof. vm_compute; reflexivity. Qed.

Example Customer_constructor_john :
  Customer_constructor "John" "Doe" "john@example.com" "secret123" fresh_world 1 = (john, 2).
Proof. vm_compute; reflexivity. Qed.

(** X15: a customer accepts the password it was created with and no other one:
    the value it stores, the base-64 text of the password followed by
    [salt], tells the passwords apart. *)
Theorem verifyPassword_accepts_the_password_only
    (firstName lastName email password attempt : string) (w : World) (counter : Z) :
  Customer_verifyPassword attempt
    (fst (Customer_constructor firstName lastName email password w counter)) = true
  <-> attempt = password.
Proof. apply verifyPassword_hashed. reflexivity. Qed.

(** * The customers of the bank *)

Lemma Bank_customers_elem (b : Bank.t) (k : Z) (c : Customer.t) :
  In (k, c) (Bank_customers b) <-> Bank._customers b !! k = Some c.
Proof.
unfold Bank_customers. rewrite <- list_elem_of_In, merge_sort_Permutation.
apply elem_of_map_to_list.
Qed.

Lemma registerCustomer_known (firstName lastName email password : string) (w : World)
    (s : Registry) (k : Z) (c : Customer.t) :
  Bank._customers (bank s) !! k = Some c ->
  Customer._email c = email ->
  Bank_registerCustomer firstName lastName email password w s
  = (inl EmailAlreadyRegistered, s).
Proof.
intros Hk Hemail. unfold Bank_registerCustomer.
destruct (find _ (Bank_customers (bank s))) as [entry|] eqn:Hfind; [reflexivity|].
pose proof (find_none _ _ Hfind (k, c) (proj2 (Bank_customers_elem _ k c) Hk)) as Hno.
cbn in Hno. rewrite Hemail, String.eqb_refl in Hno. discriminate.
Qed.

Lemma registerCustomer_new (firstName lastName email password : string) (w : World)
    (s : Registry) :
  (forall k c, Bank._customers (bank s) !! k = Some c -> Customer._email c <> email) ->
  Bank_registerCustomer firstName lastName email password w s
  = (inr (Customer_customerCounter s),
     {| Customer_customerCounter := Customer_customerCounter s + 1;
        bank := Bank_set_customers
                  (<[Customer_customerCounter s :=
                       fst (Customer_constructor firstName lastName email password w
                              (Customer_customerCounter s))]>
                     (Bank._customers (bank s)))
                  (bank s) |}).
Proof.
intros Hnew. unfold Bank_registerCustomer.
destruct (find _ (Bank_customers (bank s))) as [[k c]|] eqn:Hfind; [|reflexivity].
apply find_some in Hfind as [Hin Hemail]. apply Bank_customers_elem in Hin.
cbn in Hemail. apply String.eqb_eq in Hemail. destruct (Hnew k c Hin Hemail).
Qed.

Lemma known_or_new (email : string) (b : Bank.t) :
  (exists k c, Bank._customers b !! k = Some c /\ Customer._email c = email)
  \/ (forall k c, Bank._customers b !! k = Some c -> Customer._email c <> email).
Proof.
destruct (find (fun entry => String.eqb (Customer._email entry.2) email) (Bank_customers b))
  as [[k c]|] eqn:Hfind.
- apply find_some in Hfind as [Hin Hemail]. apply Bank_customers_elem in Hin.
  cbn in Hemail. apply String.eqb_eq in Hemail. left. exists k, c. auto.
- right. intros k c Hk Hemail.
  pose proof (find_none _ _ Hfind (k, c) (proj2 (Bank_customers_elem _ k c) Hk)) as Hno.
  cbn in Hno. rewrite Hemail, String.eqb_refl in Hno. discriminate.
Qed.


(** ** What every state of the bank keeps *)

Lemma enrolled_registerCustomer (firstName lastName email password : string) (w : World)
    (s s' : Registry) (res : BankError + Z) :
  enrolled s ->
  Bank_registerCustomer firstName lastName email password w s = (res, s') ->
  enrolled s'.
Proof.
intros [Hown Hunique] Hregister.
destruct (known_or_new email (bank s)) as [(k & c & Hk & Hemail) | Hnew].
- rewrite (registerCustomer_known _ _ _ _ w s k c Hk Hemail) in Hregister.
  injection Hregister as _ <-. split; assumption.
- rewrite registerCustomer_new in Hregister by exact Hnew. injection Hregister as _ <-.
  split; cbn [Customer_customerCounter bank Bank_set_customers Bank._customers].
  + intros k c. rewrite lookup_insert. case_decide as Hk.
    * intros [= <-]. subst k. split; [reflexivity | lia].
    * intros Hc. destruct (Hown k c Hc). split; [assumption | lia].
  + intros k1 k2 c1 c2. rewrite !lookup_insert.
    case_decide as Hk1; case_decide as Hk2; subst.
    * reflexivity.
    * intros [= <-] H2 Hemail. symmetry in Hemail. destruct (Hnew k2 c2 H2 Hemail).
    * intros H1 [= <-] Hemail. destruct (Hnew k1 c1 H1 Hemail).
    * apply Hunique.
Qed.

Lemma registered_enrolled (s : Registry) : registered s -> enrolled s.
Proof.
induction 1 as [name location b instance counter Hnew
               | s firstName lastName email password w res s' _ IH Hregister
               | s k c accounts _ [Hown Hunique] Hk
               | s counter b _ [Hown Hunique] Hcounter Hsame].
- injection Hnew as <- _. split; cbn.
  + intros k c Hk. rewrite lookup_empty in Hk. discriminate.
  + intros k1 k2 c1 c2 Hk. rewrite lookup_empty in Hk. discriminate.
- exact (enrolled_registerCustomer _ _ _ _ w s s' res IH Hregister).
- split; cbn [Customer_customerCounter bank Bank_set_customers Bank._customers].
  + intros k1 c1. rewrite lookup_insert. case_decide as Hk1.
    * intros [= <-]. rewrite <- Hk1. exact (Hown k c Hk).
    * apply Hown.
  + intros k1 k2 c1 c2. rewrite !lookup_insert.
    case_decide as Hk1; case_decide as Hk2.
    * intros _ _ _. congruence.
    * intros [= <-] H2 Hemail. rewrite <- Hk1. exact (Hunique k k2 c c2 Hk H2 Hemail).
    * intros H1 [= <-] Hemail. rewrite <- Hk2. exact (Hunique k1 k c1 c H1 Hk Hemail).
    * apply Hunique.
- split; cbn [Customer_customerCounter bank]; rewrite Hsame.
  + intros k c Hk. destruct (Hown k c Hk). split; [assumption | lia].
  + exact Hunique.
Qed.




Lemma registered_john_and_jane : registered bank_of_john_and_jane.
Proof.
unfold bank_of_john_and_jane.
eapply registered_customer; [|apply surjective_pairing].
eapply registered_customer; [|apply surjective_pairing].
exact (registered_new "OOP Bank" "Digital City" _ _ 1 eq_refl).
Qed.

(** X17: in every state of the bank a customer is held under its own number, the
    numbers in use are below [Customer.customerCounter], and two customers
    with one e-mail address are the same customer. *)
Theorem registered_emails_are_unique (s : Registry) (k1 k2 : Z) (c1 c2 : Customer.t) :
  registered s ->
  Bank._customers (bank s) !! k1 = Some c1 ->
  Bank._customers (bank s) !! k2 = Some c2 ->
  Customer._customerId c1 = k1
  /\ k1 < Customer_customerCounter s
  /\ (Customer._email c1 = Customer._email c2 -> k1 = k2).
Proof.
intros Hs H1 H2. apply registered_enrolled in Hs as [Hown Hunique].
destruct (Hown k1 c1 H1). split; [assumption|]. split; [assumption|].
exact (Hunique k1 k2 c1 c2 H1 H2).
Qed.

(** John is customer 1 and Jane customer 2, and their addresses differ. *)
Lemma registered_emails_are_unique_witness :
  exists c1 c2 : Customer.t,
    Bank._customers (bank bank_of_john_and_jane) !! 1 = Some c1
    /\ Bank._customers (bank bank_of_john_and_jane) !! 2 = Some c2
    /\ Customer._customerId c1 = 1
    /\ Customer._email c1 <> Customer._email c2.
Proof.
destruct (Bank._customers (bank bank_of_john_and_jane) !! 1) as [c1|] eqn:H1;
  [|vm_compute in H1; discriminate].
destruct (Bank._customers (bank bank_of_john_and_jane) !! 2) as [c2|] eqn:H2;
  [|vm_compute in H2; discriminate].
exists c1, c2. split; [reflexivity|]. split; [reflexivity|].
destruct (registered_emails_are_unique bank_of_john_and_jane 1 2 c1 c2
            registered_john_and_jane H1 H2) as (Hid & _ & Hunique).
split; [exact Hid|]. intros Hemail. apply Hunique in Hemail. discriminate.
Defined.





(** * The allowance of the day *)

(** X14: no request takes an account away from a customer or gives back what was
    withdrawn: after a request, every account the customer had is still there
    under its number, and its [_todayWithdrawn] is what it was, or that plus
    the positive amount of a withdrawal or of a transfer out of it. Nothing
    in the program sets it back, so the limit of a day holds for the life of
    the account. *)
Theorem allowance_is_never_restored (r : Request) (c c' : Customer.t) (w w' : World)
    (res : Error + unit) (k : Z) (o : AccountObject) :
  served c w ->
  serve r (c, w) = (res, (c', w')) ->
  Customer._accounts c !! k = Some o ->
  exists o' : AccountObject,
    Customer._accounts c' !! k = Some o'
    /\ Account._accountNumber (Account.super o') = Account._accountNumber (Account.super o)
    /\ (Account._todayWithdrawn (Account.super o') = Account._todayWithdrawn (Account.super o)
        \/ exists amount : float,
             (amount <=? 0)%float = false
             /\ Account._todayWithdrawn (Account.super o')
                = (Account._todayWithdrawn (Account.super o) + amount)%float).
Proof.
intros Hserved Hserve Hk. apply served_sound in Hserved as (_ & Hkept & _).
apply serve_cases in Hserve
  as [[-> ->]
     |[(accountType & initialDeposit & _ & -> & ->)
      |[(k0 & op & o0 & o0' & _ & Hk0 & Hop & ->)
       |(X & Y & amount & ox & oy & _ & HX & HY & Hne & Hle & _ & -> & ->)]]];
  cbn [Customer._accounts Customer.set_accounts].
- exists o. auto.
- exists o. split; [|auto]. rewrite lookup_insert_ne; [exact Hk|].
  destruct (Hkept k o Hk) as (_ & Hbelow & _). lia.
- destruct (decide (k0 = k)) as [->|Hother].
  + assert (o0 = o) by congruence. subst o0.
    exists o0'. split; [apply lookup_insert_eq|].
    apply perform_cases in Hop. cbn zeta in Hop.
    destruct op as [amount|amount|months|].
    * destruct Hop as (_ & -> & _). rewrite posted_number.
      split; [reflexivity|]. left. apply posted_fields.
    * destruct Hop as (Hle & _ & -> & _). rewrite posted_number.
      split; [reflexivity|]. right. exists amount. split; [exact Hle | apply posted_fields].
    * destruct Hop as (s & _ & -> & _). rewrite posted_number.
      split; [reflexivity|]. left. apply posted_fields.
    * destruct Hop as (c0 & _ & [(_ & -> & _) | (_ & -> & _)]); [|auto].
      rewrite posted_number. split; [reflexivity|]. left. apply posted_fields.
  + exists o. split; [|auto]. rewrite lookup_insert_ne by exact Hother. exact Hk.
- destruct (decide (Y = k)) as [->|HnY].
  + assert (oy = o) by congruence. subst oy.
    exists (transfer_destination w amount o). split; [apply lookup_insert_eq|].
    destruct (transfer_destination_fields w amount o) as (Hn & _ & _ & _ & Ht). auto.
  + rewrite lookup_insert_ne by exact HnY. destruct (decide (X = k)) as [->|HnX].
    * assert (ox = o) by congruence. subst ox.
      exists (transfer_source w amount o). split; [apply lookup_insert_eq|].
      destruct (transfer_source_fields w amount o) as (Hn & _ & _ & _ & Ht).
      split; [exact Hn|]. right. exists amount. auto.
    * exists o. split; [|auto]. rewrite lookup_insert_ne by exact HnX. exact Hk.
Qed.

(** John's savings account has withdrawn 200 by the transfer; another 100
    taken out make it 300. *)
Lemma allowance_is_never_restored_witness :
  exists o o' : AccountObject,
    Customer._accounts (fst john_at_work) !! 1001 = Some o
    /\ Customer._accounts (fst (snd (serve (OnAccount 1001 (Withdraw 100)) john_at_work)))
       !! 1001 = Some o'
    /\ Account._todayWithdrawn (Account.super o) = 200%float
    /\ Account._todayWithdrawn (Account.super o') = 300%float.
Proof.
destruct (Customer._accounts (fst john_at_work) !! 1001) as [o|] eqn:Ho;
  [|vm_compute in Ho; discriminate].
destruct (allowance_is_never_restored (OnAccount 1001 (Withdraw 100))
            (fst john_at_work)
            (fst (snd (serve (OnAccount 1001 (Withdraw 100)) john_at_work)))
            (snd john_at_work)
            (snd (snd (serve (OnAccount 1001 (Withdraw 100)) john_at_work)))
            (fst (serve (OnAccount 1001 (Withdraw 100)) john_at_work)) 1001 o
            served_john_at_work)
  as (o' & Ho' & _).
- vm_compute; reflexivity.
- exact Ho.
- exists o, o'. split; [reflexivity|]. split; [exact Ho'|].
  vm_compute in Ho. injection Ho as <-.
  vm_compute in Ho'. injection Ho' as <-. split; vm_compute; reflexivity.
Defined.
